(** * The buscacursos scraper (src/scrapers/buscacursos.py)

    A shallow embedding of the parsing functions of the scraper and the
    properties of its schedule expander, schedule parser, teacher parser,
    value coercers, row orchestration and term discovery.

    Python values are modelled as follows.
    - [str] is a sequence of Unicode code points: [pystr := list N].
    - A [bs4] document is a tree of [Node]s (text, comment, element);
      an attribute value is a string or, for multi-valued attributes such
      as [class], a list of strings, as [bs4] stores it.
    - A Python exception is a value [Raise e] of the [result] monad.
    - The builtin Unicode tables ([str.upper] and the decimal value of a
      character outside ASCII), the interpreter's limit on the number of
      digits [int] accepts, and the text normalizer [clean_text] of
      [utils] are parameters of the development. The other helpers of
      [utils], whose source is not at hand, are modelled from the
      specification and marked as such. *)

From Stdlib Require Import String Ascii.
From stdpp Require Import base option list strings gmap.

Local Open Scope N_scope.
Local Open Scope list_scope.

(** ** Python strings *)

Abbreviation pystr := (list N).

(** An ASCII literal as a Python string. *)
Definition py (s : string) : pystr :=
  map N_of_ascii (list_ascii_of_string s).

(** [str.isspace] of one character ([Py_UNICODE_ISSPACE]). *)
Definition is_space (c : N) : bool :=
  ((9 <=? c) && (c <=? 13)) || ((28 <=? c) && (c <=? 32))
  || (c =? 133) || (c =? 160) || (c =? 5760)
  || ((8192 <=? c) && (c <=? 8202))
  || (c =? 8232) || (c =? 8233) || (c =? 8239) || (c =? 8287) || (c =? 12288).

Fixpoint lstrip (s : pystr) : pystr :=
  match s with
  | c :: s' => if is_space c then lstrip s' else s
  | [] => []
  end.

Definition rstrip (s : pystr) : pystr := rev (lstrip (rev s)).

(** [s.strip()] *)
Definition strip (s : pystr) : pystr := rstrip (lstrip s).

Definition pystr_eqb (a b : pystr) : bool := bool_decide (a = b).

(** [s.startswith(p)] *)
Fixpoint startswith (p s : pystr) : bool :=
  match p, s with
  | [], _ => true
  | a :: p', b :: s' => (a =? b) && startswith p' s'
  | _ :: _, [] => false
  end.

(** [s.split(sep)] for a non-empty [sep]: the pieces between the
    non-overlapping occurrences of [sep], found from left to right.
    [skip] counts the characters of an occurrence still to be passed over.
    The result always has at least one piece. *)
Fixpoint split_from (sep : pystr) (skip : nat) (s : pystr) : list pystr :=
  match s with
  | [] => [[]]
  | c :: s' =>
      match skip with
      | S k => split_from sep k s'
      | O =>
          if startswith sep s then [] :: split_from sep (length sep - 1) s'
          else match split_from sep 0 s' with
               | p :: ps => (c :: p) :: ps
               | [] => [[c]]
               end
      end
  end.

Definition split (sep s : pystr) : list pystr := split_from sep 0 s.

(** [sep.join(parts)] *)
Fixpoint join (sep : pystr) (parts : list pystr) : pystr :=
  match parts with
  | [] => []
  | [p] => p
  | p :: ps => p ++ sep ++ join sep ps
  end.

(** [s.count(c)] for a one-character [c]. *)
Definition count_char (c : N) (s : pystr) : nat :=
  length (filter (fun x => x = c) s).

(** ** Regular expressions

    The fragment of [re] the scraper's patterns are written in, matched
    with derivatives. *)

Inductive regex : Type :=
| Void
| Eps
| Class (p : N -> bool)
| Cat (r1 r2 : regex)
| Alt (r1 r2 : regex)
| Star (r : regex).

Definition Chr (c : N) : regex := Class (N.eqb c).
Definition Opt (r : regex) : regex := Alt r Eps.

(** A literal string. *)
Fixpoint Lit (w : pystr) : regex :=
  match w with
  | [] => Eps
  | c :: w' => Cat (Chr c) (Lit w')
  end.

(** [.] (no DOTALL flag), [\s] and [\S]. *)
Definition Dot : regex := Class (fun c => negb (c =? 10)).
Definition Space : regex := Class is_space.
Definition NonSpace : regex := Class (fun c => negb (is_space c)).

Fixpoint nullable (r : regex) : bool :=
  match r with
  | Void => false
  | Eps => true
  | Class _ => false
  | Cat r1 r2 => nullable r1 && nullable r2
  | Alt r1 r2 => nullable r1 || nullable r2
  | Star _ => true
  end.

Fixpoint deriv (c : N) (r : regex) : regex :=
  match r with
  | Void => Void
  | Eps => Void
  | Class p => if p c then Eps else Void
  | Cat r1 r2 =>
      if nullable r1 then Alt (Cat (deriv c r1) r2) (deriv c r2)
      else Cat (deriv c r1) r2
  | Alt r1 r2 => Alt (deriv c r1) (deriv c r2)
  | Star r1 => Cat (deriv c r1) (Star r1)
  end.

(** [bool(r.match(s))]: some prefix of [s] is in the language of [r]. *)
Fixpoint re_match (r : regex) (s : pystr) : bool :=
  nullable r ||
  match s with
  | [] => false
  | c :: s' => re_match (deriv c r) s'
  end.

(** [bool(r.search(s))]: [r] matches at some position of [s]. *)
Fixpoint re_search (r : regex) (s : pystr) : bool :=
  re_match r s ||
  match s with
  | [] => false
  | _ :: s' => re_search r s'
  end.

(** The words of the language of a pattern. *)
Inductive lang : regex -> pystr -> Prop :=
| lang_eps : lang Eps []
| lang_class p c : p c = true -> lang (Class p) [c]
| lang_cat r1 r2 w1 w2 :
    lang r1 w1 -> lang r2 w2 -> lang (Cat r1 r2) (w1 ++ w2)
| lang_alt_l r1 r2 w : lang r1 w -> lang (Alt r1 r2) w
| lang_alt_r r1 r2 w : lang r2 w -> lang (Alt r1 r2) w
| lang_star_nil r : lang (Star r) []
| lang_star_cons r w1 w2 :
    lang r w1 -> lang (Star r) w2 -> lang (Star r) (w1 ++ w2).

(** ** Exceptions *)

Inductive exn : Type :=
| ValueError
| KeyError
| IndexError
| AttributeError
| ParseError
| StructuralRowError.

Inductive result (A : Type) : Type :=
| Ok (a : A)
| Raise (e : exn).
Arguments Ok {A} a.
Arguments Raise {A} e.

#[global] Instance result_ret : MRet result := @Ok.
#[global] Instance result_bind : MBind result :=
  fun A B f m => match m with Ok a => f a | Raise e => Raise e end.

#[global] Instance result_fmap : FMap result :=
  fun A B f m => match m with Ok a => Ok (f a) | Raise e => Raise e end.

Definition is_ok {A} (r : result A) : bool :=
  match r with Ok _ => true | Raise _ => false end.

(** ** Documents *)

(** An attribute value as [bs4] keeps it: a string, or the list of the
    whitespace-separated values of a multi-valued attribute ([class]). *)
Inductive attrval : Type :=
| AStr (s : pystr)
| AList (l : list pystr).

(** A node of the parsed document: a string, a string that [.text] leaves
    out (a comment, a declaration), or a tag with its attributes and its
    children. *)
#[warnings="-register-all"]
Inductive Node : Type :=
| Text (s : pystr)
| Comment (s : pystr)
| Elem (name : string) (attrs : gmap string attrval) (children : list Node).

Definition is_tag (name : string) (n : Node) : bool :=
  match n with
  | Elem nm _ _ => bool_decide (nm = name)
  | _ => false
  end.

Definition contents (n : Node) : list Node :=
  match n with
  | Elem _ _ cs => cs
  | _ => []
  end.

Definition attrs_of (n : Node) : gmap string attrval :=
  match n with
  | Elem _ a _ => a
  | _ => ∅
  end.

(** [tag.text]: the text nodes below the tag, concatenated; comments are
    left out. *)
Fixpoint text (n : Node) : pystr :=
  match n with
  | Text s => s
  | Comment _ => []
  | Elem _ _ cs => concat (map text cs)
  end.

(** [tag.descendants]: every node below the tag, in document order. *)
Fixpoint descendants (n : Node) : list Node :=
  match n with
  | Elem _ _ cs => flat_map (fun c => c :: descendants c) cs
  | _ => []
  end.

(** [tag.find_all(name)] and [tag.find(name)] *)
Definition find_all (name : string) (n : Node) : list Node :=
  List.filter (is_tag name) (descendants n).

Definition find (name : string) (n : Node) : option Node :=
  head (find_all name n).

(** [tag.findChildren(name, recursive=False)] *)
Definition find_children (name : string) (n : Node) : list Node :=
  List.filter (is_tag name) (contents n).

(** [tag.string]: the single string below a tag, if there is one. *)
Fixpoint node_string (n : Node) : option pystr :=
  match n with
  | Text s | Comment s => Some s
  | Elem _ _ [c] => node_string c
  | Elem _ _ _ => None
  end.

(** A node together with its previous siblings, the nearest first. *)
Record Loc : Type := {
  before : list Node;
  here : Node
}.

(** The descendants of a node in document order, each with its previous
    siblings. *)
Fixpoint descendants_loc (n : Node) : list Loc :=
  match n with
  | Elem _ _ cs =>
      (fix go (prev cs : list Node) : list Loc :=
         match cs with
         | [] => []
         | c :: cs' =>
             {| before := prev; here := c |}
               :: descendants_loc c ++ go (c :: prev) cs'
         end) [] cs
  | _ => []
  end.

(** How [bs4] compares the value of an attribute, [None] when the tag
    does not have it, with what a search asks for: with [None] (the
    attribute must be absent), with a string (equal to the value, to one
    of the values of a multi-valued attribute, or to these joined by
    spaces), and with a compiled pattern (searched in the same places). *)
Definition attr_matches_none (v : option attrval) : bool :=
  match v with None => true | Some _ => false end.

Definition attr_matches_str (v : option attrval) (w : pystr) : bool :=
  match v with
  | None => false
  | Some (AStr s) => pystr_eqb s w
  | Some (AList l) =>
      existsb (fun s => pystr_eqb s w) l || pystr_eqb (join (py " ") l) w
  end.

Definition attr_matches_re (v : option attrval) (r : regex) : bool :=
  match v with
  | None => false
  | Some (AStr s) => re_search r s
  | Some (AList l) => existsb (re_search r) l || re_search r (join (py " ") l)
  end.

(** ** Schedules *)

(** The dictionaries with the keys ["classroom"], ["type"] and ["module"]. *)
Record Session : Type := {
  classroom : option pystr;
  type : pystr;
  module : pystr
}.

(** The dictionary with the keys ["full"] and ["compact"]. *)
Record Schedule : Type := {
  full : list Session;
  compact : list Session
}.

(** [\(?Por Asignar\(?] *)
Definition MISSING_CLASSROM_RE : regex :=
  Cat (Opt (Chr 40)) (Cat (Lit (py "Por Asignar")) (Opt (Chr 40))).

(** Truth value of a string: it is not empty. *)
Definition truthy (s : pystr) : bool :=
  match s with [] => false | _ => true end.

Definition expand_schedule (module_schedule module_type classroom : pystr)
  : result (list Session) :=
  match split (py ":") module_schedule with
  | [days_raw; hours_raw] =>
      if negb (truthy days_raw && truthy hours_raw) then Ok []
      else
        let actual_classroom :=
          if re_match MISSING_CLASSROM_RE classroom then None
          else Some classroom in
        Ok (map (fun '(d, h) =>
                   {| classroom := actual_classroom;
                      type := module_type;
                      module := d ++ h |})
                (list_prod (split (py "-") days_raw)
                           (split (py ",") hours_raw)))
  | _ => Raise ValueError
  end.

(** [[r.text.strip() for r in module_row.find_all("td")]] *)
Definition packed_data (module_row : Node) : list pystr :=
  map (fun r => strip (text r)) (find_all "td" module_row).

(** The body of the loop of [parse_schedule] over the module rows, with
    the two lists it appends to as the state. *)
Fixpoint parse_module_rows (rows : list Node) (st : Schedule)
  : result Schedule :=
  match rows with
  | [] => Ok st
  | module_row :: rest =>
      match packed_data module_row with
      | module_schedule :: module_type :: classroom :: _ =>
          let schedule_compact :=
            compact st ++ [ {| classroom := Some classroom;
                               type := module_type;
                               module := module_schedule |} ] in
          sessions ← expand_schedule module_schedule module_type classroom;
          parse_module_rows rest
            {| full := full st ++ sessions; compact := schedule_compact |}
      | _ => Raise ValueError
      end
  end.

(** [None] is Python's [None], returned when the cell has no table. *)
Definition parse_schedule (row_value_tag : Node) : result (option Schedule) :=
  match find "table" row_value_tag with
  | Some schedule_table =>
      s ← parse_module_rows (find_all "tr" schedule_table)
            {| full := []; compact := [] |};
      Ok (Some s)
  | None => Ok None
  end.

(** One turn of the loop of [parse_schedule]: the compact entry and the
    expanded sessions of a module row. *)
Definition parse_module_row (module_row : Node)
  : result (Session * list Session) :=
  match packed_data module_row with
  | module_schedule :: module_type :: classroom :: _ =>
      sessions ← expand_schedule module_schedule module_type classroom;
      Ok ({| classroom := Some classroom;
             type := module_type;
             module := module_schedule |}, sessions)
  | _ => Raise ValueError
  end.

(** The day-part and the hour-part of the module-spec of a module row,
    when it has the two. *)
Definition day_hour_parts (module_row : Node) : option (pystr * pystr) :=
  match packed_data module_row with
  | module_schedule :: _ =>
      match split (py ":") module_schedule with
      | [days_raw; hours_raw] => Some (days_raw, hours_raw)
      | _ => None
      end
  | [] => None
  end.

Definition both_parts_nonempty (module_row : Node) : Prop :=
  exists d h, day_hour_parts module_row = Some (d, h) /\ d <> [] /\ h <> [].

Definition some_part_empty (module_row : Node) : Prop :=
  exists d h, day_hour_parts module_row = Some (d, h) /\ (d = [] \/ h = []).

(** The results of a list of computations, up to the first that raises. *)
Fixpoint traverse {A B} (f : A -> result B) (l : list A) : result (list B) :=
  match l with
  | [] => Ok []
  | a :: l' => b ← f a; bs ← traverse f l'; Ok (b :: bs)
  end.

(** ** Teachers *)

(** [Sin Profesores] *)
Definition MISSING_TEACHERS_RE : regex := Lit (py "Sin Profesores").

(** [(Dirección Docente)|(Por Fijar)]; 243 is the letter o with an acute
    accent. *)
Definition direccion_docente : pystr := py "Direcci" ++ [243] ++ py "n Docente".
Definition NONPERSON_TEACHERS_RE : regex :=
  Alt (Lit direccion_docente) (Lit (py "Por Fijar")).

(** [name_parts[-1] + " " + " ".join(name_parts[:-1])] *)
Definition reorder_name (teacher : pystr) : result pystr :=
  let name_parts := split (py " ") teacher in
  match last name_parts with
  | Some l => Ok (l ++ py " " ++ join (py " ") (removelast name_parts))
  | None => Raise IndexError
  end.

(** The reordering of a name as the specification words it: split on
    spaces, move the last token to the front, join with single spaces. *)
Definition reorder_name_spec (teacher : pystr) : pystr :=
  let name_parts := split (py " ") teacher in
  match last name_parts with
  | Some l => join (py " ") (l :: removelast name_parts)
  | None => []
  end.

(** The loop [for i, teacher in enumerate(teachers)], which overwrites
    [teachers[i]]; [n] bounds the number of iterations left. *)
Fixpoint teachers_loop (n i : nat) (teachers : list pystr)
  : result (list pystr) :=
  match n with
  | O => Ok teachers
  | S n' =>
      match teachers !! i with
      | None => Ok teachers
      | Some teacher =>
          t ← reorder_name teacher;
          teachers_loop n' (S i) (<[i := t]> teachers)
      end
  end.

Definition parse_teachers (row_value_tag : Node) : result (list pystr) :=
  let raw_info := strip (text row_value_tag) in
  if re_match MISSING_TEACHERS_RE raw_info then Ok []
  else if re_match NONPERSON_TEACHERS_RE raw_info then Ok [raw_info]
  else
    let teachers := split (py ", ") raw_info in
    teachers_loop (length teachers) 0 teachers.

(** ** Documents of the examples *)

Definition td (s : pystr) : Node := Elem "td" ∅ [Text s].
Definition tr (cells : list Node) : Node := Elem "tr" ∅ cells.

(** A schedule cell with the given module rows. *)
Definition schedule_cell (rows : list Node) : Node :=
  Elem "td" ∅ [Elem "table" ∅ rows].

Definition module_row3 (module_schedule module_type classroom : string) : Node :=
  tr [td (py module_schedule); td (py module_type); td (py classroom)].

(** A schedule whose second row has two cells only. *)
Definition schedule_with_short_row : Node :=
  schedule_cell [module_row3 "L:1" "CLAS" "A1"; tr [td (py "M:2"); td (py "LAB")]].

(** A schedule whose only row has an empty hour-part. *)
Definition schedule_with_empty_hours : Node :=
  schedule_cell [module_row3 "L:" "CLAS" "A1"].

(** A schedule whose second row has a module-spec without a colon. *)
Definition schedule_without_colon : Node :=
  schedule_cell [module_row3 "L-W:1,2" "CLAS" "A1"; module_row3 "M3" "LAB" "B2"].

(** A result row with the given cells. *)
Definition result_row (cells : list Node) : Node :=
  Elem "tr" {[ "class" := AList [py "resultadosRowPar"] ]} cells.

(** The eighteen cells of a well-formed course row. *)
Definition course_cells (ncr section : string) : list Node :=
  [ td (py ncr); td (py "IIC2233"); td (py "SI"); td (py "NO");
    td (py section); td (py "NO"); td (py ""); td (py "Presencial");
    td (py ""); td (py "Programacion Avanzada"); td (py "Juan Perez");
    td (py "San Joaquin"); td (py "10"); td (py "80"); td (py "5");
    td (py ""); schedule_cell [module_row3 "L-W:1,2" "CLAS" "A1"];
    td (py "") ].

(** A document with a school heading, five well-formed rows and, as its
    third row, one that lacks its last cell. *)
Definition five_rows_and_a_broken_one : Node :=
  Elem "table" ∅
    [ Elem "tr" ∅ [Elem "td" ∅ [Text (py "Ingenieria")]];
      result_row (course_cells "10001" "1");
      result_row (course_cells "10002" "2");
      result_row (removelast (course_cells "10003" "3"));
      result_row (course_cells "10004" "4");
      result_row (course_cells "10005" "5");
      result_row (course_cells "10006" "6") ].

(** A term selector with the given option values. *)
Definition term_option (v : string) : Node :=
  Elem "option" {[ "value" := AStr (py v) ]} [Text (py v)].

Definition term_select (values : list string) : Node :=
  Elem "select" {[ "name" := AStr (py "cxml_semestre") ]}
       (map term_option values).

Definition term_selector (values : list string) : Node :=
  Elem "form" ∅ [term_select values].

(** Modelled from the spec: [clean_text] of [utils], the text normalizer,
    which "trims/cleans raw cell text": input the raw text of the cell,
    output the trimmed string, no error conditions. *)
Definition trim_text (tag : Node) : pystr := strip (text tag).

(** Tables for an interpreter that knows no character outside ASCII. *)
Definition ascii_upper (c : N) : pystr := [c].
Definition ascii_decimal (c : N) : option N := None.

(** ** Coercers, rows and terms

    What follows depends on the tables of the interpreter and on
    [clean_text], which are the parameters of the section. *)

Section Builtins.

(** [str.upper] of one character outside ASCII (the full case mapping,
    which may give several characters). *)
Variable unicode_upper : N -> pystr.

(** The decimal value of a character from 127 on that is a decimal digit
    ([Py_UNICODE_TODECIMAL]). *)
Variable unicode_decimal : N -> option N.

(** [sys.get_int_max_str_digits()]; 0 when the interpreter has no
    limit. *)
Variable int_max_str_digits : N.

(** [clean_text] of [utils], the text normalizer, which is not part of
    the sources at hand. *)
Variable clean_text : Node -> pystr.

Definition upper_char (c : N) : pystr :=
  if c <? 128 then [if (97 <=? c) && (c <=? 122) then c - 32 else c]
  else unicode_upper c.

(** [s.upper()] *)
Definition upper (s : pystr) : pystr := flat_map upper_char s.

(** [int(s)] first turns every space into [" "] and every decimal
    digit into its ASCII digit; 63 is [?], which no number contains. *)
Definition to_ascii_decimal (c : N) : N :=
  if c <? 127 then c
  else if is_space c then 32
  else match unicode_decimal c with
       | Some d => 48 + d
       | None => 63
       end.

(** [Py_ISSPACE] *)
Definition ascii_space (c : N) : bool :=
  ((9 <=? c) && (c <=? 13)) || (c =? 32).

Fixpoint skip_ascii_space (s : pystr) : pystr :=
  match s with
  | c :: s' => if ascii_space c then skip_ascii_space s' else s
  | [] => []
  end.

(** The digits of a decimal literal, single underscores allowed between
    them: the value read so far, the number of digits, and whether the
    previous character was an underscore. Returns the value, the number
    of digits and the rest of the string. *)
Fixpoint scan_digits (s : pystr) (acc ndigits : N) (prev_us : bool)
  : option (N * N * pystr) :=
  match s with
  | [] => if prev_us then None else Some (acc, ndigits, [])
  | c :: s' =>
      if c =? 95 then
        if prev_us then None else scan_digits s' acc ndigits true
      else if (48 <=? c) && (c <=? 57) then
        scan_digits s' (10 * acc + (c - 48)) (ndigits + 1) false
      else if prev_us then None
      else Some (acc, ndigits, s)
  end.

(** [int(s)] in base 10. *)
Definition py_int (s : pystr) : result Z :=
  let t := skip_ascii_space (map to_ascii_decimal s) in
  let '(negative, t) :=
    match t with
    | 43 :: t' => (false, t')
    | 45 :: t' => (true, t')
    | _ => (false, t)
    end in
  match t with
  | 95 :: _ => Raise ValueError
  | _ =>
      match scan_digits t 0 0 false with
      | Some (v, ndigits, rest) =>
          if (ndigits =? 0)
             || ((0 <? int_max_str_digits) && (int_max_str_digits <? ndigits))
             || truthy (skip_ascii_space rest)
          then Raise ValueError
          else Ok (if negative then (- Z.of_N v)%Z else Z.of_N v)
      | None => Raise ValueError
      end
  end.

(** *** Helpers of [utils], which is not part of the sources at hand *)

(** Modelled from the spec: [tag_to_int_value] of [utils], the integer
    coercer, which "normalizes text, converts to integer; fails with a
    ParseError if the normalized text is not an integer literal". *)
Definition tag_to_int_value (tag : Node) : result Z :=
  match py_int (clean_text tag) with
  | Ok z => Ok z
  | Raise _ => Raise ParseError
  end.

(** *** The column strategies *)

(** The values of the fields of a scraped course. *)
Inductive value : Type :=
| VStr (s : pystr)
| VBool (b : bool)
| VInt (z : Z)
| VList (l : list pystr)
| VSchedule (s : option Schedule).

Abbreviation ParseStrategy := (list (string * option (Node -> result value))).

(** [lambda n: clean_text(n).upper() == "SI"] *)
Definition bool_from_token (n : Node) : bool :=
  pystr_eqb (upper (clean_text n)) (py "SI").

Definition str_column (n : Node) : result value := Ok (VStr (clean_text n)).
Definition bool_column (n : Node) : result value := Ok (VBool (bool_from_token n)).
Definition int_column (n : Node) : result value := VInt <$> tag_to_int_value n.

Definition COLUMNS_STRATEGIES : ParseStrategy :=
  [ ("ncr", Some str_column);
    ("code", Some str_column);
    ("allows_withdraw", Some bool_column);
    ("is_in_english", Some bool_column);
    ("section", Some int_column);
    ("requires_special_approval", Some bool_column);
    ("fg_area", Some str_column);
    ("format", Some str_column);
    ("category", Some str_column);
    ("name", Some str_column);
    ("teachers", Some (fun n => VList <$> parse_teachers n));
    ("campus", Some str_column);
    ("credits", Some int_column);
    ("total_vacancy", Some int_column);
    ("available_vacancy", Some int_column);
    ("reserved_vacancy", None);
    ("schedule", Some (fun n => VSchedule <$> parse_schedule n));
    ("add_to_calendar", None) ].

(** *** Rows *)

(** [(.|\s)*\S(.|\s)*] *)
Definition NON_EMPTY_TEXT_RE : regex :=
  Cat (Star (Alt Dot Space)) (Cat NonSpace (Star (Alt Dot Space))).

(** What [ACADEMIC_UNIT_FINDER] accepts: a tag without [style] and
    without [class] whose string matches [NON_EMPTY_TEXT_RE]. *)
Definition is_academic_unit (n : Node) : bool :=
  match n with
  | Elem _ a _ =>
      attr_matches_none (a !! "style") && attr_matches_none (a !! "class")
      && match node_string n with
         | Some s => re_search NON_EMPTY_TEXT_RE s
         | None => false
         end
  | _ => false
  end.

(** [row.find_previous_sibling] with the arguments of
    [ACADEMIC_UNIT_FINDER] *)
Definition find_previous_sibling (row : Loc) : option Node :=
  head (List.filter is_academic_unit (before row)).

(** Modelled from the spec: the dispatch of [run_parse_strategy] over the
    cells "taken in document order -- entries mapped to None are skipped,
    contributing no key to the output"; the output is "a mapping from
    field name to parsed value". *)
Fixpoint apply_strategies (strategy : ParseStrategy) (cells : list Node)
  : result (gmap string value) :=
  match strategy, cells with
  | (key, f) :: strategy', cell :: cells' =>
      match f with
      | Some parse =>
          v ← parse cell;
          out ← apply_strategies strategy' cells';
          Ok (<[key := v]> out)
      | None => apply_strategies strategy' cells'
      end
  | _, _ => Ok ∅
  end.

(** Modelled from the spec: [run_parse_strategy] of [utils], the column
    strategy dispatcher. Its input is "the fixed ordered strategy table
    + a row's cell subtrees (must have exactly as many cells as the
    strategy table has entries", and a "cell count mismatch is a
    row-level structural failure". *)
Definition run_parse_strategy (strategy : ParseStrategy) (cells : list Node)
  : result (gmap string value) :=
  if bool_decide (length cells = length strategy)
  then apply_strategies strategy cells
  else Raise StructuralRowError.

(** The coroutine [parse_row], as the result it gives when awaited.
    [data | d] keeps the value of [d] for a key both have. *)
Definition parse_row (row : Loc) : result (gmap string value) :=
  let data : gmap string value :=
    match find_previous_sibling row with
    | Some school_tag => {[ "school" := VStr (strip (text school_tag)) ]}
    | None => ∅
    end in
  d ← run_parse_strategy COLUMNS_STRATEGIES (find_children "td" (here row));
  Ok (d ∪ data).

(** [{"class": re.compile("resultados")}] *)
Definition MATCH_RESULT_ROW (n : Node) : bool :=
  attr_matches_re (attrs_of n !! "class") (Lit (py "resultados")).

(** [soup.find_all("tr", MATCH_RESULT_ROW)] *)
Definition result_rows (soup : Node) : list Loc :=
  List.filter (fun l => is_tag "tr" (here l) && MATCH_RESULT_ROW (here l))
              (descendants_loc soup).

(** The results of the coroutines that did not fail, in their order. *)
Fixpoint successes {A} (l : list (result A)) : list A :=
  match l with
  | [] => []
  | Ok a :: l' => a :: successes l'
  | Raise _ :: l' => successes l'
  end.

(** Modelled from the spec: [gather_routines] of [utils], which runs
    the row parses "as independent units of work, then collects them
    preserving original document order; a single row's structural
    failure removes only that row from the result, never aborts the
    batch": "collect per-row results as tagged success/failure values,
    filter to successes for the returned list". *)
Definition gather_routines {A} (routines : list (result A))
  : result (list A) :=
  Ok (successes routines).

(** [get_courses_raw] from the parsed body of the response on. *)
Definition get_courses_raw (soup : Node)
  : result (list (gmap string value)) :=
  let results := result_rows soup in
  match results with
  | [] => Ok []
  | _ => gather_routines (map parse_row results)
  end.

(** *** Terms *)

(** [soup.find("select", {"name": "cxml_semestre"})] *)
Definition find_period_selector (soup : Node) : option Node :=
  head (List.filter
          (fun n => is_tag "select" n
                    && attr_matches_str (attrs_of n !! "name")
                                        (py "cxml_semestre"))
          (descendants soup)).

(** [option.attrs["value"].split("-")] *)
Definition option_value_parts (option : Node) : result (list pystr) :=
  match attrs_of option !! "value" with
  | None => Raise KeyError
  | Some (AList _) => Raise AttributeError
  | Some (AStr v) => Ok (split (py "-") v)
  end.

(** One turn of the loop over the options: the term of an option. *)
Definition option_term (option : Node) : result (Z * Z) :=
  parts ← option_value_parts option;
  match parts with
  | [year; period] =>
      y ← py_int year;
      p ← py_int period;
      Ok (y, p)
  | _ => Raise ValueError
  end.

(** The value of the option has the format "<year>-<period>" and [t] is
    the pair of the two integers. *)
Definition option_has_term (option : Node) (t : Z * Z) : Prop :=
  exists v year period,
    attrs_of option !! "value" = Some (AStr v)
    /\ split (py "-") v = [year; period]
    /\ py_int year = Ok (fst t)
    /\ py_int period = Ok (snd t).

(** The loop over the options, with the list it appends to; what
    [findChildren] returns are tags, so the test of the loop always holds. *)
Fixpoint parse_options (options : list Node)
  (academic_periods : list (Z * Z)) : result (list (Z * Z)) :=
  match options with
  | [] => Ok academic_periods
  | option :: rest =>
      parts ← option_value_parts option;
      match parts with
      | [year; period] =>
          y ← py_int year;
          p ← py_int period;
          parse_options rest (academic_periods ++ [(y, p)])
      | _ => Raise ValueError
      end
  end.

(** [get_available_terms] from the parsed body of the response on. *)
Definition get_available_terms (soup : Node) : result (list (Z * Z)) :=
  match find_period_selector soup with
  | Some academic_period_selector =>
      parse_options (find_all "option" academic_period_selector) []
  | None => Ok []
  end.

(** *** Queries *)

(** The decimal digits of a natural number, the last first; [fuel] bounds
    their number. *)
Fixpoint decimal_digits_rev (fuel : nat) (n : N) : pystr :=
  match fuel with
  | O => []
  | S fuel' =>
      (48 + n mod 10)
        :: (if n <? 10 then [] else decimal_digits_rev fuel' (n / 10))
  end.

(** The decimal digits of a natural number, which are not more than its
    binary digits. *)
Definition decimal_digits (n : N) : pystr :=
  rev (decimal_digits_rev (S (N.to_nat (N.size n))) n).

(** [str(z)] of an integer, which is also what an f-string puts for it;
    it raises when the number has more digits than the interpreter
    allows. *)
Definition py_str_int (z : Z) : result pystr :=
  let digits := decimal_digits (Z.abs_N z) in
  if (0 <? int_max_str_digits)
     && (int_max_str_digits <? N.of_nat (length digits))
  then Raise ValueError
  else Ok (if (z <? 0)%Z then 45 :: digits else digits).

(** [f"{year}-{semester}"] *)
Definition term_value (year semester : Z) : result pystr :=
  y ← py_str_int year;
  s ← py_str_int semester;
  Ok (y ++ py "-" ++ s).

(** The keyword arguments with which [get_courses] calls
    [get_courses_raw], which become the parameters of the request. *)
Definition get_courses_params (code : pystr) (year semester : Z)
  : result (gmap string pystr) :=
  v ← term_value year semester;
  Ok (<["cxml_semestre" := v]> {[ "cxml_sigla" := code ]}).

(** * Properties *)

(** ** Strings *)

Lemma startswith_spec p s : startswith p s = true <-> exists rest, s = p ++ rest.
Proof.
  revert s. induction p as [|a p IH]; intros s; simpl.
  - split; eauto.
  - destruct s as [|b s].
    + split; [discriminate | intros [r Hr]; discriminate].
    + rewrite andb_true_iff, N.eqb_eq, IH. split.
      * intros [-> [r ->]]. eauto.
      * intros [r Hr]. injection Hr as -> ->. eauto.
Qed.

Lemma split_from_nonempty sep k s : split_from sep k s <> [].
Proof.
  revert k. induction s as [|c s IH]; intros [|k]; simpl; try done.
  destruct (startswith sep (c :: s)); [done|].
  destruct (split_from sep 0 s); done.
Qed.

Lemma count_char_cons c x s :
  count_char c (x :: s) = if decide (x = c) then S (count_char c s) else count_char c s.
Proof. unfold count_char. rewrite filter_cons. by case_decide. Qed.

Lemma count_char_app c s1 s2 :
  count_char c (s1 ++ s2) = (count_char c s1 + count_char c s2)%nat.
Proof. unfold count_char. by rewrite filter_app, length_app. Qed.

Lemma count_char_notin c s : c ∉ s <-> count_char c s = 0%nat.
Proof.
  induction s as [|x s IH]; [split; [done | intros _; apply not_elem_of_nil]|].
  rewrite count_char_cons, not_elem_of_cons. case_decide; subst.
  - split; [intros [? _]; done | done].
  - rewrite IH. split; [by intros [_ ?] | intros; split; congruence].
Qed.

Lemma split_char_cons c x s :
  split [c] (x :: s) =
    if decide (x = c) then [] :: split [c] s
    else match split [c] s with
         | p :: ps => (x :: p) :: ps
         | [] => [[x]]
         end.
Proof.
  unfold split. simpl. rewrite andb_true_r.
  case_decide; subst.
  - by rewrite N.eqb_refl.
  - destruct (c =? x) eqn:E; [apply N.eqb_eq in E; congruence | done].
Qed.

(** Splitting on one character gives one piece more than the string has
    occurrences of it. *)
Lemma split_char_length c s : length (split [c] s) = S (count_char c s).
Proof.
  induction s as [|x s IH]; [done|].
  rewrite split_char_cons, count_char_cons. case_decide.
  - simpl. by rewrite IH.
  - destruct (split [c] s) eqn:E; [by apply split_from_nonempty in E|].
    simpl in *. done.
Qed.

Lemma split_char_notin c s : c ∉ s -> split [c] s = [s].
Proof.
  induction s as [|x s IH]; [done|].
  rewrite not_elem_of_cons. intros [Hx Hs].
  rewrite split_char_cons, IH by done. by case_decide.
Qed.

Lemma split_char_app c d rest :
  c ∉ d -> split [c] (d ++ c :: rest) = d :: split [c] rest.
Proof.
  induction d as [|x d IH]; simpl.
  - intros _. rewrite split_char_cons. by case_decide.
  - rewrite not_elem_of_cons. intros [Hx Hd].
    rewrite split_char_cons, IH by done. by case_decide.
Qed.

Lemma join_cons sep p q qs :
  join sep (p :: q :: qs) = p ++ sep ++ join sep (q :: qs).
Proof. done. Qed.

(** Joining the pieces with the separator gives the string back. *)
Lemma join_split_char c s : join [c] (split [c] s) = s.
Proof.
  induction s as [|x s IH]; [done|].
  rewrite split_char_cons.
  destruct (split [c] s) as [|p ps] eqn:E; [by apply split_from_nonempty in E|].
  case_decide as Hx.
  - subst x. rewrite join_cons, IH. done.
  - destruct ps as [|q qs]; simpl in *; by rewrite <- IH.
Qed.

(** A string with exactly one occurrence of [c] splits in two, and only
    such a string does. *)
Lemma split_char_two c s d h :
  split [c] s = [d; h] <-> s = d ++ c :: h /\ (c ∉ d) /\ (c ∉ h).
Proof.
  split.
  - intros Hs.
    pose proof (join_split_char c s) as Hj.
    pose proof (split_char_length c s) as Hl.
    rewrite Hs in Hj, Hl. simpl in Hj, Hl. subst s.
    rewrite count_char_app, count_char_cons in Hl. case_decide; [|done].
    split; [done|]. rewrite !count_char_notin. lia.
  - intros (-> & Hd & Hh). by rewrite split_char_app, split_char_notin.
Qed.

(** The pieces of a split do not contain the separator. *)
Lemma split_char_pieces c s : Forall (fun p => c ∉ p) (split [c] s).
Proof.
  induction s as [|x s IH]; [repeat constructor; apply not_elem_of_nil|].
  rewrite split_char_cons. case_decide as Hx.
  - constructor; [apply not_elem_of_nil | done].
  - destruct (split [c] s) as [|p ps]; [repeat constructor|].
    + rewrite not_elem_of_cons. split; [congruence | apply not_elem_of_nil].
    + apply Forall_cons in IH as [Hp Hps]. constructor; [|done].
      rewrite not_elem_of_cons. split; [congruence | done].
Qed.

(** Splitting what was joined gives the pieces back, when no piece contains
    the separator. *)
Lemma split_join_char c l :
  l <> [] -> Forall (fun p => c ∉ p) l -> split [c] (join [c] l) = l.
Proof.
  induction l as [|p [|q qs] IH]; [done | |]; intros _ Hl.
  - apply Forall_cons in Hl as [Hp _]. by apply split_char_notin.
  - apply Forall_cons in Hl as [Hp Hl].
    rewrite join_cons. change ([c] ++ join [c] (q :: qs)) with (c :: join [c] (q :: qs)).
    rewrite split_char_app by done. by rewrite IH.
Qed.

Lemma lstrip_suffix s : exists w, s = w ++ lstrip s.
Proof.
  induction s as [|c s [w IH]]; [by exists []|]. simpl.
  destruct (is_space c); [|by exists []].
  exists (c :: w). simpl. by rewrite <- IH.
Qed.

Lemma lstrip_head s c t : lstrip s = c :: t -> is_space c = false.
Proof.
  induction s as [|x s IH]; [done|]. simpl.
  destruct (is_space x) eqn:E; [done|]. by intros [= <- _].
Qed.

Lemma lstrip_fixed s :
  (forall c t, s = c :: t -> is_space c = false) -> lstrip s = s.
Proof.
  destruct s as [|c t]; [done|]. intros H. simpl. by rewrite (H c t eq_refl).
Qed.

(** Trimming a trimmed string changes nothing. *)
Lemma strip_idempotent s : strip (strip s) = strip s.
Proof.
  unfold strip, rstrip.
  set (u := lstrip s). set (v := lstrip (rev u)).
  assert (Hv : lstrip v = v).
  { apply lstrip_fixed. intros c t E. by apply (lstrip_head (rev u) c t). }
  assert (Hrv : lstrip (rev v) = rev v).
  { apply lstrip_fixed. intros c t E.
    destruct (lstrip_suffix (rev u)) as [w Hw]. fold v in Hw.
    apply (f_equal (@rev N)) in Hw. rewrite rev_involutive, rev_app_distr, E in Hw.
    simpl in Hw. by apply (lstrip_head s c (t ++ rev w)). }
  by rewrite Hrv, rev_involutive, Hv.
Qed.

(** ** Patterns *)

Lemma lang_void_inv w : lang Void w -> False.
Proof. inversion 1. Qed.

Lemma lang_eps_inv w : lang Eps w -> w = [].
Proof. by inversion 1. Qed.

Lemma lang_class_inv p w : lang (Class p) w -> exists c, w = [c] /\ p c = true.
Proof. inversion 1; subst; eauto. Qed.

Lemma lang_cat_inv r1 r2 w :
  lang (Cat r1 r2) w -> exists w1 w2, w = w1 ++ w2 /\ lang r1 w1 /\ lang r2 w2.
Proof. inversion 1; subst; eauto. Qed.

Lemma lang_alt_inv r1 r2 w : lang (Alt r1 r2) w -> lang r1 w \/ lang r2 w.
Proof. inversion 1; subst; eauto. Qed.

Lemma nullable_spec r : nullable r = true <-> lang r [].
Proof.
  induction r as [| |p|r1 IH1 r2 IH2|r1 IH1 r2 IH2|r IH]; simpl.
  - split; [discriminate | intros H; by apply lang_void_inv in H].
  - split; [constructor | done].
  - split; [discriminate|]. intros H.
    apply lang_class_inv in H as (c & E & _). discriminate.
  - rewrite andb_true_iff, IH1, IH2. split.
    + intros [H1 H2]. apply (lang_cat _ _ [] []); done.
    + intros H. apply lang_cat_inv in H as (w1 & w2 & E & H1 & H2).
      symmetry in E. apply app_eq_nil in E as [-> ->]. done.
  - rewrite orb_true_iff, IH1, IH2. split.
    + intros [H|H]; [by apply lang_alt_l | by apply lang_alt_r].
    + apply lang_alt_inv.
  - split; [constructor | done].
Qed.

Lemma star_cons_inv r s :
  lang (Star r) s -> forall c w, s = c :: w ->
  exists w1 w2, w = w1 ++ w2 /\ lang r (c :: w1) /\ lang (Star r) w2.
Proof.
  remember (Star r) as sr eqn:E. intros H. revert E.
  induction H as [| | | | | |r' w1 w2 H1 _ H2 IH2]; try discriminate.
  intros [= ->] c w Hs. destruct w1 as [|x w1]; simpl in Hs.
  - by apply IH2.
  - injection Hs as -> <-. eauto.
Qed.

Lemma deriv_spec r : forall c w, lang (deriv c r) w <-> lang r (c :: w).
Proof.
  induction r as [| |p|r1 IH1 r2 IH2|r1 IH1 r2 IH2|r IH]; intros c w; simpl.
  - split; intros H; by apply lang_void_inv in H.
  - split; intros H; [by apply lang_void_inv in H|].
    apply lang_eps_inv in H. discriminate.
  - split.
    + destruct (p c) eqn:Hp; intros H; [|by apply lang_void_inv in H].
      apply lang_eps_inv in H as ->. by constructor.
    + intros H. apply lang_class_inv in H as (x & [= -> ->] & ->). constructor.
  - assert (Hcat : lang (Cat (deriv c r1) r2) w -> lang (Cat r1 r2) (c :: w)).
    { intros H. apply lang_cat_inv in H as (w1 & w2 & -> & H1 & H2).
      apply IH1 in H1. by apply (lang_cat _ _ (c :: w1) w2). }
    assert (Hinv : lang (Cat r1 r2) (c :: w) ->
                   lang (Cat (deriv c r1) r2) w \/ (lang r1 [] /\ lang r2 (c :: w))).
    { intros H. apply lang_cat_inv in H as (w1 & w2 & E & H1 & H2).
      destruct w1 as [|x w1]; simpl in E; subst.
      - right. done.
      - injection E as -> ->. left. constructor; [by apply IH1 | done]. }
    destruct (nullable r1) eqn:Hn.
    + split.
      * intros H. apply lang_alt_inv in H as [H|H]; [by apply Hcat|].
        apply (lang_cat _ _ [] (c :: w)); [by apply nullable_spec | by apply IH2].
      * intros H. destruct (Hinv H) as [?|[_ ?]];
          [by apply lang_alt_l | apply lang_alt_r; by apply IH2].
    + split; [done|]. intros H. destruct (Hinv H) as [?|[Hnil _]]; [done|].
      apply nullable_spec in Hnil. congruence.
  - split; intros H; apply lang_alt_inv in H as [H|H];
      first [apply lang_alt_l; by apply IH1 | apply lang_alt_r; by apply IH2].
  - split.
    + intros H. apply lang_cat_inv in H as (w1 & w2 & -> & H1 & H2).
      apply IH in H1. by apply (lang_star_cons _ (c :: w1) w2).
    + intros H. destruct (star_cons_inv _ _ H c w eq_refl) as (w1 & w2 & -> & H1 & H2).
      constructor; [by apply IH | done].
Qed.

(** [re_match] finds a prefix of the string in the language of the
    pattern. *)
Lemma re_match_spec r s :
  re_match r s = true <-> exists w rest, s = w ++ rest /\ lang r w.
Proof.
  revert r. induction s as [|c s IH]; intros r; simpl.
  - rewrite orb_false_r, nullable_spec. split.
    + intros H. by exists [], [].
    + intros (w & rest & E & H). symmetry in E.
      apply app_eq_nil in E as [-> _]. done.
  - rewrite orb_true_iff, nullable_spec, IH. split.
    + intros [H|(w & rest & -> & H)].
      * by exists [], (c :: s).
      * exists (c :: w), rest. split; [done | by apply deriv_spec].
    + intros (w & rest & E & H). destruct w as [|x w]; [by left|].
      injection E as <- ->. right. exists w, rest. split; [done | by apply deriv_spec].
Qed.

Lemma lang_Lit w v : lang (Lit w) v <-> v = w.
Proof.
  revert v. induction w as [|c w IH]; intros v; simpl.
  - split; [apply lang_eps_inv | intros ->; constructor].
  - split.
    + intros H. apply lang_cat_inv in H as (w1 & w2 & -> & H1 & H2).
      apply IH in H2 as ->.
      apply lang_class_inv in H1 as (x & -> & Hx). apply N.eqb_eq in Hx as ->.
      done.
    + intros ->. apply (lang_cat _ _ [c] w); [|by apply IH].
      constructor. apply N.eqb_refl.
Qed.

(** A literal pattern matches the strings that start with it. *)
Lemma re_match_Lit w s : re_match (Lit w) s = startswith w s.
Proof.
  apply eq_true_iff_eq. rewrite re_match_spec, startswith_spec. split.
  - intros (v & rest & -> & H). apply lang_Lit in H as ->. eauto.
  - intros [rest ->]. exists w, rest. split; [done | by apply lang_Lit].
Qed.

Lemma re_match_Alt r1 r2 s :
  re_match (Alt r1 r2) s = re_match r1 s || re_match r2 s.
Proof.
  apply eq_true_iff_eq. rewrite orb_true_iff, !re_match_spec. split.
  - intros (w & rest & -> & H). apply lang_alt_inv in H as [H|H]; eauto.
  - intros [(w & rest & -> & H)|(w & rest & -> & H)];
      exists w, rest; (split; [done|]); [by apply lang_alt_l | by apply lang_alt_r].
Qed.


Lemma re_match_MISSING_CLASSROM_RE s :
  re_match MISSING_CLASSROM_RE s
  = startswith (py "Por Asignar") s || startswith (py "(Por Asignar") s.
Proof.
  apply eq_true_iff_eq.
  rewrite orb_true_iff, re_match_spec, !startswith_spec. split.
  - intros (w & rest & -> & H).
    apply lang_cat_inv in H as (w1 & w' & -> & H1 & H).
    apply lang_cat_inv in H as (w2 & w3 & -> & H2 & H3).
    apply lang_Lit in H2 as ->.
    apply lang_alt_inv in H1 as [H1|H1].
    + apply lang_class_inv in H1 as (c & -> & Hc). apply N.eqb_eq in Hc as <-.
      right. exists (w3 ++ rest). by rewrite <- !app_assoc.
    + apply lang_eps_inv in H1 as ->. left. exists (w3 ++ rest).
      by rewrite <- !app_assoc.
  - intros [[rest ->]|[rest ->]].
    + exists (py "Por Asignar"), rest. split; [done|].
      apply (lang_cat _ _ [] (py "Por Asignar")); [apply lang_alt_r; constructor|].
      rewrite <- (app_nil_r (py "Por Asignar")).
      apply lang_cat; [by apply lang_Lit | apply lang_alt_r; constructor].
    + exists (py "(Por Asignar"), rest. split; [done|].
      apply (lang_cat _ _ [40] (py "Por Asignar")).
      * apply lang_alt_l. by constructor.
      * rewrite <- (app_nil_r (py "Por Asignar")).
        apply lang_cat; [by apply lang_Lit | apply lang_alt_r; constructor].
Qed.

(** ** The schedule expander *)

Lemma truthy_spec s : truthy s = true <-> s <> [].
Proof. destruct s; simpl; split; done. Qed.

(** What [expand_schedule] does with a module-spec with one colon. *)
Lemma expand_schedule_two ms ty cl d h :
  split (py ":") ms = [d; h] ->
  expand_schedule ms ty cl =
    Ok (if truthy d && truthy h then
          map (fun '(x, y) =>
                 {| classroom := if re_match MISSING_CLASSROM_RE cl then None
                                 else Some cl;
                    type := ty;
                    module := x ++ y |})
              (list_prod (split (py "-") d) (split (py ",") h))
        else []).
Proof.
  intros H. unfold expand_schedule. rewrite H.
  by destruct (truthy d && truthy h).
Qed.

(** [expand_schedule] returns for the module-specs with exactly one colon
    and raises [ValueError] for all others. *)
Lemma expand_schedule_cases ms ty cl :
  (count_char 58 ms = 1%nat /\ exists l, expand_schedule ms ty cl = Ok l)
  \/ (count_char 58 ms <> 1%nat /\ expand_schedule ms ty cl = Raise ValueError).
Proof.
  pose proof (split_char_length 58 ms) as Hl.
  change [58] with (py ":") in Hl.
  destruct (split (py ":") ms) as [|d [|h [|x rest]]] eqn:E; simpl in Hl.
  - lia.
  - right. split; [lia|]. unfold expand_schedule. by rewrite E.
  - left. split; [lia|]. rewrite (expand_schedule_two _ _ _ _ _ E). eauto.
  - right. split; [lia|]. unfold expand_schedule. by rewrite E.
Qed.

Lemma list_prod_nonempty {A B} (l1 : list A) (l2 : list B) :
  l1 <> [] -> l2 <> [] -> list_prod l1 l2 <> [].
Proof. destruct l1, l2; simpl; done. Qed.

(** Claim C1, as amended. A module-spec whose day-part [d] and hour-part
    [h] (the two pieces around its colon) are both non-empty expands to one
    session per pair of a day token and an hour token, in the order of the
    Cartesian product of the tokens of [d] split on "-" and those of [h]
    split on ","; the module of each session is its day token followed by
    its hour token. For "L-M:1,2" these are the 4 sessions L1, L2, M1, M2. *)
Theorem expand_schedule_product ms ty cl d h :
  split (py ":") ms = [d; h] -> d <> [] -> h <> [] ->
  let days := split (py "-") d in
  let hours := split (py ",") h in
  exists l,
    expand_schedule ms ty cl = Ok l
    /\ map module l = map (fun '(x, y) => x ++ y) (list_prod days hours)
    /\ length l = (length days * length hours)%nat
    /\ Forall (fun s => type s = ty) l.
Proof.
  intros Hs Hd Hh days hours.
  rewrite (expand_schedule_two _ _ _ _ _ Hs).
  apply truthy_spec in Hd, Hh. rewrite Hd, Hh. simpl.
  eexists. split; [reflexivity|]. split; [|split].
  - rewrite map_map. apply map_ext. by intros [x y].
  - by rewrite length_map, length_prod.
  - apply Forall_map, Forall_forall. by intros [x y] _.
Qed.

Lemma expand_schedule_product_witness :
  split (py ":") (py "L-M:1,2") = [py "L-M"; py "1,2"]
  /\ py "L-M" <> [] /\ py "1,2" <> []
  /\ exists l,
       expand_schedule (py "L-M:1,2") (py "CLAS") (py "A1") = Ok l
       /\ map module l = [py "L1"; py "L2"; py "M1"; py "M2"]
       /\ length l = 4%nat
       /\ Forall (fun s => type s = py "CLAS") l.
Proof.
  split; [reflexivity|]. split; [discriminate|]. split; [discriminate|].
  apply (expand_schedule_product (py "L-M:1,2") (py "CLAS") (py "A1")
           (py "L-M") (py "1,2")); [reflexivity | discriminate | discriminate].
Defined.

(** Claim C1 as stated fails: the module-spec "LM:1-2" has the single day
    token "LM" and the single hour token "1-2", and expands to one session,
    not to the four sessions L1, L2, M1, M2. *)
Lemma expand_schedule_LM_1_2 :
  expand_schedule (py "LM:1-2") (py "CLAS") (py "A1")
  = Ok [ {| classroom := Some (py "A1"); type := py "CLAS";
            module := py "LM1-2" |} ]
  /\ ~ (exists l, expand_schedule (py "LM:1-2") (py "CLAS") (py "A1") = Ok l
                  /\ length l = 4%nat).
Proof.
  split; [reflexivity|]. intros (l & H & Hl).
  vm_compute in H. injection H as <-. discriminate.
Qed.

(** Every session of an expansion has the type of the row and the
    classroom that the sentinel test gives. *)
Lemma expand_schedule_sessions ms ty cl l s :
  expand_schedule ms ty cl = Ok l -> In s l ->
  type s = ty
  /\ classroom s = if re_match MISSING_CLASSROM_RE cl then None else Some cl.
Proof.
  intros H Hin.
  destruct (expand_schedule_cases ms ty cl) as [[Hn _]|[_ Hr]]; [|congruence].
  pose proof (split_char_length 58 ms) as Hl. change [58] with (py ":") in Hl.
  destruct (split (py ":") ms) as [|d [|h [|x rest]]] eqn:E;
    simpl in Hl; try lia.
  rewrite (expand_schedule_two _ _ _ _ _ E) in H. injection H as <-.
  destruct (truthy d && truthy h); [|done].
  apply in_map_iff in Hin as ([x y] & <- & _). done.
Qed.

(** Claim C9. In every session of an expansion the classroom is absent
    exactly when the classroom text matches the pattern
    [MISSING_CLASSROM_RE], that is when it starts with "Por Asignar" or
    "(Por Asignar", and is the classroom text otherwise. *)
Theorem expand_schedule_classroom ms ty cl l s :
  expand_schedule ms ty cl = Ok l -> In s l ->
  (classroom s = None <-> re_match MISSING_CLASSROM_RE cl = true)
  /\ (re_match MISSING_CLASSROM_RE cl = false -> classroom s = Some cl)
  /\ (startswith (py "Por Asignar") cl = true -> classroom s = None).
Proof.
  intros H Hin.
  destruct (expand_schedule_sessions _ _ _ _ _ H Hin) as [_ Hc].
  rewrite Hc, re_match_MISSING_CLASSROM_RE.
  destruct (startswith (py "Por Asignar") cl),
    (startswith (py "(Por Asignar") cl); simpl; split_and!; auto; try done.
Qed.

Lemma expand_schedule_classroom_witness :
  let s := {| classroom := None; type := py "LAB"; module := py "M3" |} in
  let l := [ {| classroom := None; type := py "LAB"; module := py "L3" |}; s ] in
  expand_schedule (py "L-M:3") (py "LAB") (py "Por Asignar") = Ok l
  /\ In s l
  /\ (classroom s = None <-> re_match MISSING_CLASSROM_RE (py "Por Asignar") = true)
  /\ (re_match MISSING_CLASSROM_RE (py "Por Asignar") = false
      -> classroom s = Some (py "Por Asignar"))
  /\ (startswith (py "Por Asignar") (py "Por Asignar") = true -> classroom s = None).
Proof.
  intros s l.
  assert (H : expand_schedule (py "L-M:3") (py "LAB") (py "Por Asignar") = Ok l)
    by reflexivity.
  assert (Hin : In s l) by (right; left; reflexivity).
  split; [exact H|]. split; [exact Hin|].
  exact (expand_schedule_classroom _ _ _ _ _ H Hin).
Defined.

(** The number of sessions of an expansion: with [n] dashes in a non-empty
    day-part and [m] commas in a non-empty hour-part there are
    [(n + 1) * (m + 1)] sessions. *)
Theorem expand_schedule_count ms ty cl d h :
  split (py ":") ms = [d; h] -> d <> [] -> h <> [] ->
  exists l,
    expand_schedule ms ty cl = Ok l
    /\ length l = (S (count_char 45 d) * S (count_char 44 h))%nat.
Proof.
  intros Hs Hd Hh. rewrite (expand_schedule_two _ _ _ _ _ Hs).
  apply truthy_spec in Hd, Hh. rewrite Hd, Hh. simpl andb. cbv iota.
  eexists. split; [reflexivity|].
  rewrite length_map, length_prod.
  change (py "-") with [45]. change (py ",") with [44].
  by rewrite !split_char_length.
Qed.

Lemma expand_schedule_count_witness :
  split (py ":") (py "L-W-V:1,2") = [py "L-W-V"; py "1,2"]
  /\ py "L-W-V" <> [] /\ py "1,2" <> []
  /\ exists l,
       expand_schedule (py "L-W-V:1,2") (py "CLAS") (py "A1") = Ok l
       /\ length l = 6%nat.
Proof.
  split; [reflexivity|]. split; [discriminate|]. split; [discriminate|].
  apply (expand_schedule_count (py "L-W-V:1,2") (py "CLAS") (py "A1")
           (py "L-W-V") (py "1,2")); [reflexivity | discriminate | discriminate].
Defined.

(** Empty tokens are not dropped. When the day-part has an empty day token,
    as with a dash at its start, at its end or twice in a row, the
    expansion has for every hour token a session whose module is that hour
    token alone. *)
Theorem expand_schedule_empty_day_token ms ty cl d h l y :
  split (py ":") ms = [d; h] -> d <> [] -> h <> [] ->
  expand_schedule ms ty cl = Ok l ->
  In [] (split (py "-") d) -> In y (split (py ",") h) ->
  exists s, In s l /\ module s = y.
Proof.
  intros Hs Hd Hh Hl Hx Hy.
  rewrite (expand_schedule_two _ _ _ _ _ Hs) in Hl.
  apply truthy_spec in Hd, Hh. rewrite Hd, Hh in Hl. simpl in Hl.
  injection Hl as <-.
  eexists. split.
  - apply in_map_iff. exists ([], y). split; [reflexivity|].
    by apply in_prod.
  - reflexivity.
Qed.

Lemma expand_schedule_empty_day_token_witness :
  split (py ":") (py "L-:3") = [py "L-"; py "3"]
  /\ py "L-" <> [] /\ py "3" <> []
  /\ expand_schedule (py "L-:3") (py "CLAS") (py "A1")
     = Ok [ {| classroom := Some (py "A1"); type := py "CLAS"; module := py "L3" |};
            {| classroom := Some (py "A1"); type := py "CLAS"; module := py "3" |} ]
  /\ In [] (split (py "-") (py "L-")) /\ In (py "3") (split (py ",") (py "3"))
  /\ exists s,
       In s [ {| classroom := Some (py "A1"); type := py "CLAS"; module := py "L3" |};
              {| classroom := Some (py "A1"); type := py "CLAS"; module := py "3" |} ]
       /\ module s = py "3".
Proof.
  split; [reflexivity|]. split; [discriminate|]. split; [discriminate|].
  split; [reflexivity|]. split; [right; left; reflexivity|].
  split; [left; reflexivity|].
  apply (expand_schedule_empty_day_token (py "L-:3") (py "CLAS") (py "A1")
           (py "L-") (py "3"));
    [reflexivity | discriminate | discriminate | reflexivity
    | right; left; reflexivity | left; reflexivity].
Defined.

(** ** The schedule parser *)

Lemma traverse_ok {A B} (f : A -> result B) l bs :
  traverse f l = Ok bs <-> Forall2 (fun a b => f a = Ok b) l bs.
Proof.
  revert bs. induction l as [|a l IH]; intros bs; simpl.
  - split; [intros [= <-]; constructor | by inversion 1].
  - destruct (f a) as [b|e] eqn:Ha; simpl.
    + destruct (traverse f l) as [bs'|e] eqn:Hl; simpl.
      * split.
        -- intros [= <-]. constructor; [done | by apply IH].
        -- inversion 1 as [|? b' ? bs'' Hb Hbs]; subst.
           apply IH in Hbs. congruence.
      * split; [done|]. inversion 1 as [|? b' ? bs'' Hb Hbs]; subst.
        apply IH in Hbs. done.
    + split; [done|]. inversion 1; subst. congruence.
Qed.

(** When every failure of [f] is the exception [e], one failing element
    makes [traverse] raise [e]. *)
Lemma traverse_raise {A B} (f : A -> result B) l e a :
  (forall x e', In x l -> f x = Raise e' -> e' = e) ->
  In a l -> is_ok (f a) = false -> traverse f l = Raise e.
Proof.
  induction l as [|x l IH]; simpl; [done|].
  intros Hf [->|Hin] Ha.
  - destruct (f a) as [b|e'] eqn:E; [done|].
    by rewrite (Hf a e' (or_introl eq_refl) E).
  - destruct (f x) as [b|e'] eqn:E; simpl;
      [|by rewrite (Hf x e' (or_introl eq_refl) E)].
    rewrite IH; [done | | done | done].
    intros y e' Hy. apply Hf. by right.
Qed.

Lemma parse_module_row_raise row e :
  parse_module_row row = Raise e -> e = ValueError.
Proof.
  unfold parse_module_row.
  destruct (packed_data row) as [|ms [|ty [|cl rest]]]; try by intros [= <-].
  destruct (expand_schedule_cases ms ty cl) as [[_ [l ->]]|[_ ->]]; simpl;
    [done | by intros [= <-]].
Qed.

Lemma traverse_cons {A B} (f : A -> result B) a l :
  traverse f (a :: l) = (b ← f a; bs ← traverse f l; Ok (b :: bs)).
Proof. reflexivity. Qed.

Lemma parse_module_rows_cons row rows st :
  parse_module_rows (row :: rows) st =
    ('(entry, sessions) ← parse_module_row row;
     parse_module_rows rows
       {| full := full st ++ sessions; compact := compact st ++ [entry] |}).
Proof.
  simpl. unfold parse_module_row.
  destruct (packed_data row) as [|ms [|ty [|cl rest]]]; try reflexivity.
  destruct (expand_schedule ms ty cl); reflexivity.
Qed.

(** The loop over the module rows handles the rows one after the other
    and stops at the first that raises. *)
Lemma parse_module_rows_traverse rows st :
  parse_module_rows rows st =
    (rs ← traverse parse_module_row rows;
     Ok {| full := full st ++ concat (map snd rs);
           compact := compact st ++ map fst rs |}).
Proof.
  revert st. induction rows as [|row rows IH]; intros st.
  - simpl. by rewrite !app_nil_r; destruct st.
  - rewrite parse_module_rows_cons, traverse_cons.
    destruct (parse_module_row row) as [[entry sessions]|e]; [|reflexivity].
    cbn [mbind result_bind]. rewrite IH.
    destruct (traverse parse_module_row rows) as [rs|e]; [|reflexivity].
    cbn [mbind result_bind map concat fst snd full compact].
    by rewrite <- !app_assoc.
Qed.

Lemma parse_schedule_raise tag table row :
  find "table" tag = Some table ->
  In row (find_all "tr" table) ->
  is_ok (parse_module_row row) = false ->
  parse_schedule tag = Raise ValueError.
Proof.
  intros Ht Hin Hrow. unfold parse_schedule. rewrite Ht.
  rewrite parse_module_rows_traverse.
  rewrite (traverse_raise _ _ ValueError row); [done | | done | done].
  intros x e _. apply parse_module_row_raise.
Qed.

(** The sessions of the full list of a schedule come from the module rows:
    each has the type of its row and the classroom that the sentinel test
    gives for the classroom text of its row. *)
Lemma parse_schedule_sessions tag sch s :
  parse_schedule tag = Ok (Some sch) -> In s (full sch) ->
  exists table row ms ty cl rest,
    find "table" tag = Some table
    /\ In row (find_all "tr" table)
    /\ packed_data row = ms :: ty :: cl :: rest
    /\ type s = ty
    /\ classroom s = if re_match MISSING_CLASSROM_RE cl then None else Some cl.
Proof.
  intros H Hin. unfold parse_schedule in H.
  destruct (find "table" tag) as [table|]; [|done].
  rewrite parse_module_rows_traverse in H.
  destruct (traverse parse_module_row (find_all "tr" table)) as [rs|e] eqn:E;
    [|done].
  injection H as <-. simpl in Hin. apply traverse_ok in E.
  apply in_concat in Hin as (sess & Hsess & Hs).
  apply in_map_iff in Hsess as ([entry sess'] & <- & Hrs).
  apply list_elem_of_In, list_elem_of_lookup in Hrs as [i Hi].
  destruct (Forall2_lookup_r _ _ _ _ _ E Hi) as (row & Hrow & Hp).
  unfold parse_module_row in Hp.
  destruct (packed_data row) as [|ms [|ty [|cl rest]]] eqn:Hpd; try done.
  destruct (expand_schedule ms ty cl) as [l|] eqn:He; [|done].
  injection Hp as _ <-.
  destruct (expand_schedule_sessions _ _ _ _ _ He Hs) as [Hty Hcl].
  exists table, row, ms, ty, cl, rest. split; [done|]. split; [|done].
  apply list_elem_of_In, list_elem_of_lookup. eauto.
Qed.

(** Claim C10. [expand_schedule] returns exactly for the module-specs with
    one colon: for a module-spec without a colon, or with more than one, the
    two-way unpacking raises [ValueError], and a module row with such a
    module-spec makes [parse_schedule] raise too. *)
Theorem expand_schedule_one_colon ms ty cl :
  (expand_schedule ms ty cl = Raise ValueError <-> count_char 58 ms <> 1%nat)
  /\ (count_char 58 ms = 1%nat -> exists l, expand_schedule ms ty cl = Ok l)
  /\ (count_char 58 ms <> 1%nat ->
      forall tag table row rest,
        find "table" tag = Some table ->
        In row (find_all "tr" table) ->
        packed_data row = ms :: ty :: cl :: rest ->
        parse_schedule tag = Raise ValueError).
Proof.
  destruct (expand_schedule_cases ms ty cl) as [[Hn [l Hl]]|[Hn Hr]].
  - split; [|split]; [|eauto|done].
    rewrite Hl. split; [done | by intros []].
  - split; [|split]; [done | done |].
    intros _ tag table row rest Ht Hin Hp.
    apply (parse_schedule_raise tag table row); [done | done |].
    unfold parse_module_row. by rewrite Hp, Hr.
Qed.

(** Claim C3, as amended. A module row with fewer than three cells makes
    [parse_schedule] raise [ValueError]: the parse of the whole schedule is
    given up and no schedule is produced, whatever the other rows are. *)
Theorem parse_schedule_short_row tag table row :
  find "table" tag = Some table ->
  In row (find_all "tr" table) ->
  (length (packed_data row) < 3)%nat ->
  parse_schedule tag = Raise ValueError.
Proof.
  intros Ht Hin Hlen.
  apply (parse_schedule_raise tag table row); [done | done |].
  unfold parse_module_row.
  destruct (packed_data row) as [|ms [|ty [|cl rest]]]; simpl in *; [done..|lia].
Qed.

Lemma expand_schedule_one_colon_witness :
  let tag := schedule_without_colon in
  let row := module_row3 "M3" "LAB" "B2" in
  count_char 58 (py "M3") <> 1%nat
  /\ expand_schedule (py "M3") (py "LAB") (py "B2") = Raise ValueError
  /\ expand_schedule (py "L-W:1,2") (py "CLAS") (py "A1") <> Raise ValueError
  /\ parse_schedule tag = Raise ValueError.
Proof.
  intros tag row.
  assert (Hn : count_char 58 (py "M3") <> 1%nat) by (vm_compute; discriminate).
  destruct (expand_schedule_one_colon (py "M3") (py "LAB") (py "B2"))
    as (Hiff & _ & Hrow).
  split; [exact Hn|]. split; [by apply Hiff|]. split; [discriminate|].
  apply (Hrow Hn tag (Elem "table" ∅ [module_row3 "L-W:1,2" "CLAS" "A1"; row])
           row []); [reflexivity | right; left; reflexivity | reflexivity].
Defined.

Lemma parse_schedule_short_row_witness :
  let table := Elem "table" ∅ [tr [td (py "M:2"); td (py "LAB")]] in
  let tag := Elem "td" ∅ [table] in
  find "table" tag = Some table
  /\ In (tr [td (py "M:2"); td (py "LAB")]) (find_all "tr" table)
  /\ (length (packed_data (tr [td (py "M:2"); td (py "LAB")])) < 3)%nat
  /\ parse_schedule tag = Raise ValueError.
Proof.
  intros table tag.
  assert (H1 : find "table" tag = Some table) by reflexivity.
  assert (H2 : In (tr [td (py "M:2"); td (py "LAB")]) (find_all "tr" table))
    by (left; reflexivity).
  assert (H3 : (length (packed_data (tr [td (py "M:2"); td (py "LAB")])) < 3)%nat)
    by (vm_compute; lia).
  split; [exact H1|]. split; [exact H2|]. split; [exact H3|].
  exact (parse_schedule_short_row tag table _ H1 H2 H3).
Defined.

(** Claim C3 as stated fails: a row with two cells after a well-formed row
    is not skipped; the parse of the schedule raises and the well-formed
    row is lost with it. *)
Lemma parse_schedule_short_row_aborts :
  parse_schedule schedule_with_short_row = Raise ValueError
  /\ ~ (exists s, parse_schedule schedule_with_short_row = Ok (Some s)).
Proof.
  assert (H : parse_schedule schedule_with_short_row = Raise ValueError)
    by (vm_compute; reflexivity).
  split; [exact H|]. intros [s Hs]. congruence.
Qed.

Lemma parse_module_row_sessions row entry sess :
  parse_module_row row = Ok (entry, sess) ->
  exists d h, day_hour_parts row = Some (d, h)
              /\ (sess = [] <-> d = [] \/ h = []).
Proof.
  unfold parse_module_row, day_hour_parts.
  destruct (packed_data row) as [|ms [|ty [|cl rest]]]; try done.
  destruct (split (py ":") ms) as [|d [|h [|x tl]]] eqn:E;
    try (unfold expand_schedule; rewrite E; done).
  rewrite (expand_schedule_two _ _ _ _ _ E). simpl. intros [= _ <-].
  exists d, h. split; [done|].
  destruct d as [|c d]; [simpl; split; auto|].
  destruct h as [|c' h]; [simpl; split; auto|].
  cbn [truthy andb]. split.
  - intros Hm. apply map_eq_nil in Hm.
    apply list_prod_nonempty in Hm; [done | apply split_from_nonempty..].
  - intros [?|?]; done.
Qed.

Lemma module_rows_sessions rows rs :
  Forall2 (fun r b => parse_module_row r = Ok b) rows rs ->
  (Forall both_parts_nonempty rows ->
   (length rows <= length (concat (map snd rs)))%nat)
  /\ (concat (map snd rs) = [] <-> Forall some_part_empty rows).
Proof.
  induction 1 as [|row [entry sess] rows rs Hrow _ [IH1 IH2]]; simpl.
  - split; [lia | split; [constructor | done]].
  - destruct (parse_module_row_sessions _ _ _ Hrow) as (d & h & Hp & Hs).
    split.
    + intros Hall. apply Forall_cons in Hall as [(d' & h' & Hp' & Hd & Hh) Hall].
      rewrite Hp in Hp'. injection Hp' as <- <-.
      rewrite length_app. specialize (IH1 Hall).
      destruct sess; [|simpl; lia]. destruct Hs as [Hs _].
      destruct (Hs eq_refl); done.
    + rewrite Forall_cons, <- IH2. split.
      * intros Hc. apply app_eq_nil in Hc as [-> Hc]. split; [|done].
        exists d, h. split; [done | by apply Hs].
      * intros [(d' & h' & Hp' & Hdh) ->].
        rewrite Hp in Hp'. injection Hp' as <- <-.
        apply Hs in Hdh as ->. done.
Qed.

(** Claim C4, as amended. A schedule produced by [parse_schedule] has one
    compact entry per module row of the table. Its compact list is at most
    as long as its full list when every row has a non-empty day-part and a
    non-empty hour-part, and its full list is empty exactly when every row
    (if there is any) has an empty day-part or an empty hour-part. The
    module-spec "L:" expands to no session. *)
Theorem parse_schedule_lengths tag s :
  parse_schedule tag = Ok (Some s) ->
  (exists table,
     find "table" tag = Some table
     /\ length (compact s) = length (find_all "tr" table)
     /\ (Forall both_parts_nonempty (find_all "tr" table) ->
         (length (compact s) <= length (full s))%nat)
     /\ (full s = [] <-> Forall some_part_empty (find_all "tr" table)))
  /\ (forall ty cl, expand_schedule (py "L:") ty cl = Ok []).
Proof.
  intros H. split; [|reflexivity].
  unfold parse_schedule in H.
  destruct (find "table" tag) as [table|]; [|done].
  exists table. split; [done|].
  rewrite parse_module_rows_traverse in H.
  destruct (traverse parse_module_row (find_all "tr" table)) as [rs|e] eqn:E;
    [|done].
  injection H as <-. simpl.
  apply traverse_ok in E.
  destruct (module_rows_sessions _ _ E) as [H1 H2].
  rewrite length_map, <- (Forall2_length _ _ _ E). done.
Qed.

Lemma parse_schedule_lengths_witness :
  let s := {| full := [];
              compact := [ {| classroom := Some (py "A1"); type := py "CLAS";
                              module := py "L:" |} ] |} in
  parse_schedule schedule_with_empty_hours = Ok (Some s)
  /\ (exists table,
        find "table" schedule_with_empty_hours = Some table
        /\ length (compact s) = length (find_all "tr" table)
        /\ (Forall both_parts_nonempty (find_all "tr" table) ->
            (length (compact s) <= length (full s))%nat)
        /\ (full s = [] <-> Forall some_part_empty (find_all "tr" table)))
  /\ (forall ty cl, expand_schedule (py "L:") ty cl = Ok []).
Proof.
  intros s.
  assert (H : parse_schedule schedule_with_empty_hours = Ok (Some s))
    by reflexivity.
  split; [exact H|].
  exact (parse_schedule_lengths schedule_with_empty_hours s H).
Defined.

(** Claim C4 as stated fails: the schedule of a table whose only row has
    the module-spec "L:" has one compact entry and no expanded session, so
    its compact list is longer than its full list. *)
Lemma parse_schedule_compact_longer :
  exists s,
    parse_schedule schedule_with_empty_hours = Ok (Some s)
    /\ length (compact s) = 1%nat /\ length (full s) = 0%nat
    /\ ~ (length (compact s) <= length (full s))%nat.
Proof.
  eexists. split; [reflexivity|]. simpl. split; [done|]. split; [done | lia].
Qed.

(** *** The shape of a schedule *)

Lemma parse_schedule_traverse tag sch :
  parse_schedule tag = Ok (Some sch) ->
  exists table rs,
    find "table" tag = Some table
    /\ Forall2 (fun row b => parse_module_row row = Ok b)
               (find_all "tr" table) rs
    /\ full sch = concat (map snd rs)
    /\ compact sch = map fst rs.
Proof.
  intros H. unfold parse_schedule in H.
  destruct (find "table" tag) as [table|]; [|done].
  rewrite parse_module_rows_traverse in H.
  destruct (traverse parse_module_row (find_all "tr" table)) as [rs|e] eqn:E;
    [|done].
  injection H as <-. apply traverse_ok in E. by exists table, rs.
Qed.

Lemma parse_module_row_ok row entry sessions :
  parse_module_row row = Ok (entry, sessions) ->
  exists ms ty cl rest,
    packed_data row = ms :: ty :: cl :: rest
    /\ entry = {| classroom := Some cl; type := ty; module := ms |}
    /\ expand_schedule ms ty cl = Ok sessions.
Proof.
  unfold parse_module_row.
  destruct (packed_data row) as [|ms [|ty [|cl rest]]]; try done.
  destruct (expand_schedule ms ty cl) as [l|] eqn:He; [|done].
  intros [= <- <-]. by exists ms, ty, cl, rest.
Qed.

(** The cell has no schedule exactly when it has no table below it; a table
    without rows gives a schedule with two empty lists, not the absence of
    a schedule. *)
Theorem parse_schedule_absent tag :
  (parse_schedule tag = Ok None <-> find "table" tag = None)
  /\ (forall table,
        find "table" tag = Some table -> find_all "tr" table = [] ->
        parse_schedule tag = Ok (Some {| full := []; compact := [] |})).
Proof.
  unfold parse_schedule. destruct (find "table" tag) as [table|]; [|done].
  split.
  - destruct (parse_module_rows _ _); done.
  - intros ? [= <-] ->. done.
Qed.

(** The two lists of a schedule follow the module rows of the table in
    their order. The compact list has for each row the texts of its first
    three cells as they are, the classroom always present, whatever cells
    come after them; the full list is the expansions of the rows one after
    the other. *)
Theorem parse_schedule_rows tag sch :
  parse_schedule tag = Ok (Some sch) ->
  exists table expansions,
    find "table" tag = Some table
    /\ Forall2 (fun row entry =>
                  exists ms ty cl rest,
                    packed_data row = ms :: ty :: cl :: rest
                    /\ entry = {| classroom := Some cl; type := ty;
                                  module := ms |})
               (find_all "tr" table) (compact sch)
    /\ Forall2 (fun row sessions =>
                  exists ms ty cl rest,
                    packed_data row = ms :: ty :: cl :: rest
                    /\ expand_schedule ms ty cl = Ok sessions)
               (find_all "tr" table) expansions
    /\ full sch = concat expansions.
Proof.
  intros H.
  destruct (parse_schedule_traverse _ _ H) as (table & rs & Ht & Hrs & -> & ->).
  exists table, (map snd rs). split; [done|].
  split; [|split; [|done]].
  - induction Hrs as [|row [entry sessions] rows rs Hrow _ IH]; constructor;
      [|done].
    destruct (parse_module_row_ok _ _ _ Hrow) as (ms & ty & cl & rest & ? & ? & ?).
    by exists ms, ty, cl, rest.
  - induction Hrs as [|row [entry sessions] rows rs Hrow _ IH]; constructor;
      [|done].
    destruct (parse_module_row_ok _ _ _ Hrow) as (ms & ty & cl & rest & ? & ? & ?).
    by exists ms, ty, cl, rest.
Qed.

Lemma parse_schedule_rows_witness :
  let tag := schedule_cell [module_row3 "L-W:1,2" "CLAS" "(Por Asignar)";
                            module_row3 "M:" "LAB" "B2"] in
  exists sch,
    parse_schedule tag = Ok (Some sch)
    /\ map module (compact sch) = [py "L-W:1,2"; py "M:"]
    /\ map classroom (compact sch) = [Some (py "(Por Asignar)"); Some (py "B2")]
    /\ map module (full sch) = [py "L1"; py "L2"; py "W1"; py "W2"]
    /\ exists table expansions,
         find "table" tag = Some table
         /\ Forall2 (fun row entry =>
                       exists ms ty cl rest,
                         packed_data row = ms :: ty :: cl :: rest
                         /\ entry = {| classroom := Some cl; type := ty;
                                       module := ms |})
                    (find_all "tr" table) (compact sch)
         /\ Forall2 (fun row sessions =>
                       exists ms ty cl rest,
                         packed_data row = ms :: ty :: cl :: rest
                         /\ expand_schedule ms ty cl = Ok sessions)
                    (find_all "tr" table) expansions
         /\ full sch = concat expansions.
Proof.
  intros tag.
  destruct (parse_schedule tag) as [[sch|]|] eqn:E; try (vm_compute in E; discriminate).
  exists sch. split; [reflexivity|].
  pose proof (parse_schedule_rows tag sch E) as H.
  vm_compute in E. injection E as <-.
  split; [reflexivity|]. split; [reflexivity|]. split; [reflexivity|]. exact H.
Defined.

Lemma traverse_is_ok {A B} (f : A -> result B) l :
  is_ok (traverse f l) = true <-> Forall (fun a => is_ok (f a) = true) l.
Proof.
  induction l as [|a l IH]; simpl; [split; [constructor | done]|].
  rewrite Forall_cons, <- IH.
  destruct (f a); simpl; [|split; [done | by intros [? _]]].
  destruct (traverse f l); simpl; split; auto; by intros [_ ?].
Qed.

(** When the cell has a table, the parse of the schedule succeeds exactly
    when every module row of the table has at least three cells and one
    colon, no more and no less, in the text of its first cell; when it
    fails, it is with [ValueError]. *)
Theorem parse_schedule_ok_iff tag table :
  find "table" tag = Some table ->
  (is_ok (parse_schedule tag) = true
   <-> Forall (fun row =>
                 exists ms ty cl rest,
                   packed_data row = ms :: ty :: cl :: rest
                   /\ count_char 58 ms = 1%nat)
              (find_all "tr" table))
  /\ (forall e, parse_schedule tag = Raise e -> e = ValueError).
Proof.
  intros Ht. unfold parse_schedule. rewrite Ht, parse_module_rows_traverse.
  assert (Hrow : forall row,
             is_ok (parse_module_row row) = true
             <-> exists ms ty cl rest,
                   packed_data row = ms :: ty :: cl :: rest
                   /\ count_char 58 ms = 1%nat).
  { intros row. unfold parse_module_row.
    destruct (packed_data row) as [|ms [|ty [|cl rest]]];
      try (split; [done | by intros (? & ? & ? & ? & ? & _)]).
    destruct (expand_schedule_cases ms ty cl) as [[Hn [l ->]]|[Hn ->]]; simpl.
    - split; [|done]. intros _. by exists ms, ty, cl, rest.
    - split; [done|]. intros (? & ? & ? & ? & [= <- _ _ _] & ?). done. }
  split.
  - rewrite <- (Forall_iff _ _ _ Hrow), <- traverse_is_ok.
    destruct (traverse parse_module_row (find_all "tr" table)); done.
  - intros e.
    destruct (traverse parse_module_row (find_all "tr" table)) as [rs|e'] eqn:E;
      [done|]. simpl. intros [= <-].
    clear -E. induction (find_all "tr" table) as [|row rows IH]; [done|].
    rewrite traverse_cons in E.
    destruct (parse_module_row row) as [b|e] eqn:Er; simpl in E.
    + destruct (traverse parse_module_row rows); [done|].
      simpl in E. injection E as ->. by apply IH.
    + injection E as ->. by apply parse_module_row_raise in Er.
Qed.

Lemma parse_schedule_ok_iff_witness :
  let tag := schedule_without_colon in
  let table := Elem "table" ∅ [module_row3 "L-W:1,2" "CLAS" "A1";
                               module_row3 "M3" "LAB" "B2"] in
  find "table" tag = Some table
  /\ is_ok (parse_schedule tag) = false
  /\ ~ Forall (fun row =>
                 exists ms ty cl rest,
                   packed_data row = ms :: ty :: cl :: rest
                   /\ count_char 58 ms = 1%nat)
              (find_all "tr" table)
  /\ parse_schedule tag = Raise ValueError.
Proof.
  intros tag table.
  assert (Ht : find "table" tag = Some table) by reflexivity.
  destruct (parse_schedule_ok_iff tag table Ht) as [Hiff Herr].
  assert (Hno : is_ok (parse_schedule tag) = false) by reflexivity.
  split; [exact Ht|]. split; [exact Hno|]. split.
  - intros H. apply Hiff in H. congruence.
  - destruct (parse_schedule tag) as [?|e]; [discriminate|].
    by rewrite (Herr e eq_refl).
Defined.

(** Only the first table below the cell is read: after the nodes without a
    table that come before it, what follows it in the cell changes
    nothing. *)
Theorem parse_schedule_first_table name attrs pre table_attrs rows others :
  Forall (fun c => is_tag "table" c = false /\ find_all "table" c = []) pre ->
  parse_schedule
    (Elem name attrs (pre ++ Elem "table" table_attrs rows :: others))
  = parse_schedule (Elem name attrs [Elem "table" table_attrs rows]).
Proof.
  intros Hpre.
  assert (Hfind : find "table" (Elem name attrs
                                  (pre ++ Elem "table" table_attrs rows :: others))
                  = Some (Elem "table" table_attrs rows)).
  { unfold find, find_all. simpl.
    rewrite flat_map_app, List.filter_app.
    assert (Hnil : List.filter (is_tag "table")
                     (flat_map (fun c => c :: descendants c) pre) = []).
    { induction Hpre as [|c pre [Hc Hd] _ IH]; [done|].
      simpl. rewrite Hc, List.filter_app. fold (find_all "table" c).
      by rewrite Hd, IH. }
    rewrite Hnil. reflexivity. }
  assert (Hone : find "table" (Elem name attrs [Elem "table" table_attrs rows])
                 = Some (Elem "table" table_attrs rows)) by reflexivity.
  unfold parse_schedule. by rewrite Hfind, Hone.
Qed.

Lemma parse_schedule_first_table_witness :
  let pre := [Text (py " "); Elem "br" ∅ []] in
  let rows := [module_row3 "L:1" "CLAS" "A1"] in
  let others := [Elem "table" ∅ [module_row3 "M2" "LAB" "B2"]] in
  Forall (fun c => is_tag "table" c = false /\ find_all "table" c = []) pre
  /\ parse_schedule (Elem "td" ∅ (pre ++ Elem "table" ∅ rows :: others))
     = parse_schedule (Elem "td" ∅ [Elem "table" ∅ rows]).
Proof.
  intros pre rows others.
  assert (H : Forall (fun c => is_tag "table" c = false
                               /\ find_all "table" c = []) pre)
    by (repeat constructor).
  split; [exact H|].
  exact (parse_schedule_first_table "td" ∅ pre ∅ rows others H).
Defined.

(** The texts of the cells are trimmed: in the compact list the module, the
    type and the classroom of every entry, and in the full list the type
    and the classroom of every session, have no white space at either
    end. *)
Theorem parse_schedule_trimmed tag sch :
  parse_schedule tag = Ok (Some sch) ->
  Forall (fun entry =>
            strip (module entry) = module entry
            /\ strip (type entry) = type entry
            /\ exists cl, classroom entry = Some cl /\ strip cl = cl)
         (compact sch)
  /\ Forall (fun session =>
               strip (type session) = type session
               /\ forall cl, classroom session = Some cl -> strip cl = cl)
            (full sch).
Proof.
  intros H.
  assert (Hpd : forall row, Forall (fun x => strip x = x) (packed_data row)).
  { intros row. unfold packed_data. apply Forall_map, Forall_forall.
    intros r _. apply strip_idempotent. }
  split.
  - destruct (parse_schedule_traverse _ _ H) as (table & rs & _ & Hrs & _ & ->).
    induction Hrs as [|row [entry sessions] rows rs Hrow _ IH]; constructor;
      [|done].
    destruct (parse_module_row_ok _ _ _ Hrow) as (ms & ty & cl & rest & Hp & -> & _).
    specialize (Hpd row). rewrite Hp in Hpd.
    apply Forall_cons in Hpd as [Hms Hpd]. apply Forall_cons in Hpd as [Hty Hpd].
    apply Forall_cons in Hpd as [Hcl _]. simpl. eauto.
  - apply Forall_forall. intros s Hs. apply list_elem_of_In in Hs.
    destruct (parse_schedule_sessions tag sch s H Hs)
      as (table & row & ms & ty & cl & rest & _ & _ & Hp & Hty & Hcl).
    specialize (Hpd row). rewrite Hp in Hpd.
    apply Forall_cons in Hpd as [_ Hpd]. apply Forall_cons in Hpd as [Hty' Hpd].
    apply Forall_cons in Hpd as [Hcl' _].
    split; [by rewrite Hty|]. intros c Hc. rewrite Hcl in Hc.
    destruct (re_match MISSING_CLASSROM_RE cl); [done|]. by injection Hc as <-.
Qed.

Lemma parse_schedule_trimmed_witness :
  let tag := schedule_cell [module_row3 " L:1 " " CLAS" "A1 "] in
  let sch := {| full := [ {| classroom := Some (py "A1"); type := py "CLAS";
                             module := py "L1" |} ];
                compact := [ {| classroom := Some (py "A1"); type := py "CLAS";
                                module := py "L:1" |} ] |} in
  parse_schedule tag = Ok (Some sch)
  /\ Forall (fun entry =>
               strip (module entry) = module entry
               /\ strip (type entry) = type entry
               /\ exists cl, classroom entry = Some cl /\ strip cl = cl)
            (compact sch)
  /\ Forall (fun session =>
               strip (type session) = type session
               /\ forall cl, classroom session = Some cl -> strip cl = cl)
            (full sch).
Proof.
  intros tag sch.
  assert (H : parse_schedule tag = Ok (Some sch)) by reflexivity.
  split; [exact H|]. exact (parse_schedule_trimmed tag sch H).
Defined.

(** ** The teacher parser *)

Lemma reorder_name_total teacher : exists r, reorder_name teacher = Ok r.
Proof.
  unfold reorder_name.
  destruct (last (split (py " ") teacher)) eqn:E; [eauto|].
  apply last_None in E. by apply split_from_nonempty in E.
Qed.

(** The loop replaces the names one after the other, from the first to the
    last, and ends. *)
Lemma teachers_loop_spec todo :
  forall n done,
    (length todo <= n)%nat ->
    exists rs,
      teachers_loop n (length done) (done ++ todo) = Ok (done ++ rs)
      /\ Forall2 (fun t r => reorder_name t = Ok r) todo rs.
Proof.
  induction todo as [|t todo IH]; intros n done Hn.
  - exists []. split; [|constructor]. destruct n; simpl; [done|].
    rewrite lookup_ge_None_2; [done|]. rewrite length_app. simpl. lia.
  - destruct n as [|n]; simpl in Hn; [lia|].
    destruct (reorder_name_total t) as [r Hr].
    destruct (IH n (done ++ [r])) as (rs & Hloop & Hrs); [lia|].
    exists (r :: rs). split; [|by constructor].
    simpl. rewrite list_lookup_middle by done. rewrite Hr. simpl.
    rewrite insert_app_r_alt, Nat.sub_diag by done. simpl.
    rewrite length_app, Nat.add_1_r, <- !app_assoc in Hloop. done.
Qed.

(** Outside the two sentinel cases the parser returns one reordered name
    per entry of the text split on ", ", in the order of the entries. *)
Lemma parse_teachers_names tag :
  re_match MISSING_TEACHERS_RE (strip (text tag)) = false ->
  re_match NONPERSON_TEACHERS_RE (strip (text tag)) = false ->
  exists rs,
    parse_teachers tag = Ok rs
    /\ Forall2 (fun t r => reorder_name t = Ok r)
               (split (py ", ") (strip (text tag))) rs.
Proof.
  intros H1 H2. unfold parse_teachers. rewrite H1, H2.
  apply (teachers_loop_spec _ _ []). done.
Qed.

(** A name with a space in it is reordered as the specification says. *)
Lemma reorder_name_spaced teacher :
  32 ∈ teacher -> reorder_name teacher = Ok (reorder_name_spec teacher).
Proof.
  intros Hin. unfold reorder_name, reorder_name_spec.
  pose proof (split_char_length 32 teacher) as Hl.
  change [32] with (py " ") in Hl.
  destruct (split (py " ") teacher) as [|p [|q ps]] eqn:E; simpl in Hl.
  - lia.
  - exfalso. apply (count_char_notin 32 teacher); [lia | done].
  - destruct (last (p :: q :: ps)) eqn:El; [|by apply last_None in El].
    change (removelast (p :: q :: ps)) with (p :: removelast (q :: ps)).
    done.
Qed.

(** A name without a space gets a space appended, which the reordering of
    the specification does not do. *)
Lemma reorder_name_single teacher :
  32 ∉ teacher ->
  reorder_name teacher = Ok (teacher ++ py " ")
  /\ reorder_name_spec teacher = teacher.
Proof.
  intros Hin. unfold reorder_name, reorder_name_spec.
  change (py " ") with [32]. rewrite split_char_notin by done. done.
Qed.

(** The teacher parser never raises: the index error of [name_parts[-1]]
    cannot happen, since a split always gives a piece. Outside the two
    sentinel cases it returns one name per entry, and every name has a
    space in it, so that no name is empty. *)
Theorem parse_teachers_total tag :
  exists names,
    parse_teachers tag = Ok names
    /\ (re_match MISSING_TEACHERS_RE (strip (text tag)) = false ->
        re_match NONPERSON_TEACHERS_RE (strip (text tag)) = false ->
        length names = length (split (py ", ") (strip (text tag)))
        /\ names <> []
        /\ Forall (fun name => 32 ∈ name) names).
Proof.
  destruct (re_match MISSING_TEACHERS_RE (strip (text tag))) eqn:H1.
  { exists []. unfold parse_teachers. rewrite H1. done. }
  destruct (re_match NONPERSON_TEACHERS_RE (strip (text tag))) eqn:H2.
  { exists [strip (text tag)]. unfold parse_teachers. rewrite H1, H2. done. }
  destruct (parse_teachers_names tag H1 H2) as (rs & Hp & Hrs).
  exists rs. split; [done|]. intros _ _.
  split; [by rewrite (Forall2_length _ _ _ Hrs)|]. split.
  - intros ->. apply Forall2_nil_inv_r in Hrs. by apply split_from_nonempty in Hrs.
  - clear Hp. induction Hrs as [|t r ts rs Hr _ IH]; constructor; [|done].
    unfold reorder_name in Hr.
    destruct (last (split (py " ") t)); [|done]. injection Hr as <-.
    rewrite elem_of_app, elem_of_cons. right. left. reflexivity.
Qed.

(** A cell without text, or with white space only, does not give the empty
    list: it gives one name, which is a single space. *)
Theorem parse_teachers_blank tag :
  strip (text tag) = [] -> parse_teachers tag = Ok [py " "].
Proof. intros H. unfold parse_teachers. rewrite H. reflexivity. Qed.

Lemma parse_teachers_blank_witness :
  strip (text (td (py "  "))) = [] /\ parse_teachers (td (py "  ")) = Ok [py " "].
Proof.
  split; [reflexivity|]. apply (parse_teachers_blank (td (py "  "))). reflexivity.
Defined.

(** The reordering in terms of tokens. The tokens of the reordered name are
    the last token of the name followed by its other tokens in their order,
    when the name has a space; a name of one token gets an empty token
    after it. *)
Theorem reorder_name_tokens teacher :
  exists init lst r,
    split (py " ") teacher = init ++ [lst]
    /\ reorder_name teacher = Ok r
    /\ split (py " ") r = match init with [] => [lst; []] | _ => lst :: init end.
Proof.
  pose proof (split_char_pieces 32 teacher) as Hp.
  change [32] with (py " ") in Hp.
  unfold reorder_name.
  destruct (last (split (py " ") teacher)) as [lst|] eqn:El;
    [|apply last_None in El; by apply split_from_nonempty in El].
  apply last_Some in El as [init El]. rewrite El in *.
  exists init, lst, (lst ++ py " " ++ join (py " ") init).
  rewrite removelast_last. split; [done|]. split; [done|].
  apply Forall_app in Hp as [Hinit Hlst]. apply Forall_cons in Hlst as [Hlst _].
  change (py " ") with [32].
  change (lst ++ [32] ++ join [32] init) with (lst ++ 32 :: join [32] init).
  rewrite split_char_app by done.
  destruct init as [|p ps]; [done|]. by rewrite split_join_char.
Qed.

(** Where every entry has a space, the parser returns the names reordered
    as the specification says, in the order of the entries. *)
Theorem parse_teachers_spaced_entries tag :
  re_match MISSING_TEACHERS_RE (strip (text tag)) = false ->
  re_match NONPERSON_TEACHERS_RE (strip (text tag)) = false ->
  Forall (fun entry => 32 ∈ entry) (split (py ", ") (strip (text tag))) ->
  parse_teachers tag
  = Ok (map reorder_name_spec (split (py ", ") (strip (text tag)))).
Proof.
  intros H1 H2 Hall.
  destruct (parse_teachers_names tag H1 H2) as (rs & -> & Hrs).
  f_equal. induction Hrs as [|t r ts rs Hr _ IH]; [done|].
  apply Forall_cons in Hall as [Ht Hall].
  rewrite reorder_name_spaced in Hr by done. injection Hr as <-.
  simpl. by rewrite IH.
Qed.

Lemma parse_teachers_spaced_entries_witness :
  let tag := td (py "Ana Maria Rojas, Juan Perez") in
  re_match MISSING_TEACHERS_RE (strip (text tag)) = false
  /\ re_match NONPERSON_TEACHERS_RE (strip (text tag)) = false
  /\ Forall (fun entry => 32 ∈ entry) (split (py ", ") (strip (text tag)))
  /\ parse_teachers tag = Ok [py "Rojas Ana Maria"; py "Perez Juan"].
Proof.
  intros tag.
  assert (H1 : re_match MISSING_TEACHERS_RE (strip (text tag)) = false)
    by reflexivity.
  assert (H2 : re_match NONPERSON_TEACHERS_RE (strip (text tag)) = false)
    by reflexivity.
  assert (H3 : Forall (fun entry => 32 ∈ entry)
                      (split (py ", ") (strip (text tag)))).
  { repeat constructor; apply (bool_decide_unpack _); vm_compute; exact I. }
  split; [exact H1|]. split; [exact H2|]. split; [exact H3|].
  exact (parse_teachers_spaced_entries tag H1 H2 H3).
Defined.

Lemma sentinels_disjoint raw :
  startswith (py "Sin Profesores") raw = true ->
  startswith direccion_docente raw = false
  /\ startswith (py "Por Fijar") raw = false.
Proof.
  destruct raw as [|c raw]; [done|].
  change (py "Sin Profesores") with (83 :: py "in Profesores").
  change direccion_docente with (68 :: py "irecci" ++ [243] ++ py "n Docente").
  change (py "Por Fijar") with (80 :: py "or Fijar").
  cbn [startswith]. destruct (N.eqb_spec 83 c) as [<-|]; done.
Qed.

(** Claim C6, as amended. The teacher parser returns the empty list
    exactly when the trimmed text of the cell starts with "Sin Profesores",
    and returns the list with the trimmed text alone, unchanged, when that
    text starts with "Dirección Docente" or with "Por Fijar". *)
Theorem parse_teachers_sentinels tag :
  (parse_teachers tag = Ok []
   <-> startswith (py "Sin Profesores") (strip (text tag)) = true)
  /\ (startswith direccion_docente (strip (text tag)) = true
      \/ startswith (py "Por Fijar") (strip (text tag)) = true ->
      parse_teachers tag = Ok [strip (text tag)]).
Proof.
  pose proof (re_match_Lit (py "Sin Profesores") (strip (text tag))) as E1.
  assert (E2 : re_match NONPERSON_TEACHERS_RE (strip (text tag))
               = startswith direccion_docente (strip (text tag))
                 || startswith (py "Por Fijar") (strip (text tag)))
    by (unfold NONPERSON_TEACHERS_RE; by rewrite re_match_Alt, !re_match_Lit).
  fold MISSING_TEACHERS_RE in E1.
  destruct (re_match MISSING_TEACHERS_RE (strip (text tag))) eqn:H1.
  - symmetry in E1. destruct (sentinels_disjoint _ E1) as [Hd Hp].
    unfold parse_teachers. rewrite H1. split; [done|].
    rewrite Hd, Hp. by intros [|].
  - rewrite <- E1.
    destruct (re_match NONPERSON_TEACHERS_RE (strip (text tag))) eqn:H2.
    + unfold parse_teachers. rewrite H1, H2. split; [done | done].
    + destruct (parse_teachers_names tag H1 H2) as (rs & -> & Hrs).
      symmetry in E2. apply orb_false_iff in E2 as [-> ->].
      split; [|by intros [|]]. split; [|done]. intros [= ->].
      apply Forall2_nil_inv_r in Hrs. by apply split_from_nonempty in Hrs.
Qed.

Lemma parse_teachers_sentinels_witness :
  parse_teachers (td (py "Sin Profesores")) = Ok []
  /\ parse_teachers (td direccion_docente) = Ok [direccion_docente]
  /\ parse_teachers (td (py " Por Fijar ")) = Ok [py "Por Fijar"].
Proof.
  split; [|split].
  - by apply (parse_teachers_sentinels (td (py "Sin Profesores"))).
  - by apply (parse_teachers_sentinels (td direccion_docente)); left.
  - by apply (parse_teachers_sentinels (td (py " Por Fijar "))); right.
Defined.

(** Claim C6 as stated fails: a text that only starts with the sentinel
    "Sin Profesores" gives the empty list too. *)
Lemma parse_teachers_prefix_match :
  parse_teachers (td (py "Sin Profesores Asignados")) = Ok []
  /\ strip (text (td (py "Sin Profesores Asignados"))) <> py "Sin Profesores".
Proof. split; [reflexivity | discriminate]. Qed.

(** The example of claim C7: 233, 237 and 243 are the letters e, i and o
    with an acute accent. *)
Lemma parse_teachers_example :
  parse_teachers
    (td (py "Juan P" ++ [233] ++ py "rez, Ana Mar" ++ [237] ++ py "a L"
         ++ [243] ++ py "pez"))
  = Ok [ py "P" ++ [233] ++ py "rez Juan";
         py "L" ++ [243] ++ py "pez Ana Mar" ++ [237] ++ py "a" ].
Proof. reflexivity. Qed.

(** Claim C7 at an entry of one token. The parser gives the token followed
    by a space, where moving the last token to the front and joining with
    single spaces gives the token alone. *)
Theorem parse_teachers_single_token :
  parse_teachers (td (py "Madonna")) = Ok [py "Madonna "]
  /\ map reorder_name_spec (split (py ", ") (py "Madonna")) = [py "Madonna"]
  /\ parse_teachers (td (py "Ana Rojas, Madonna"))
     = Ok [py "Rojas Ana"; py "Madonna "].
Proof. split; [|split]; reflexivity. Qed.

(** ** Coercers, rows and terms *)

(** Claim C8. The boolean coercer is total, and true exactly when the
    normalized text of the cell, in upper case, is "SI": the normalized
    texts "SI" and "si" give true, "NO", the empty text and "N/A" give
    false. *)
Theorem bool_from_token_spec n :
  (bool_from_token n = true <-> upper (clean_text n) = py "SI")
  /\ bool_column n = Ok (VBool (bool_from_token n))
  /\ (clean_text n = py "SI" \/ clean_text n = py "si" ->
      bool_from_token n = true)
  /\ (clean_text n = py "NO" \/ clean_text n = py "" \/ clean_text n = py "N/A" ->
      bool_from_token n = false).
Proof.
  split; [|split; [reflexivity|]].
  - unfold bool_from_token, pystr_eqb. apply bool_decide_eq_true.
  - unfold bool_from_token.
    split; [intros [->| ->] | intros [->|[->| ->]]]; reflexivity.
Qed.

Lemma upper_char_ascii c :
  c < 128 ->
  upper_char c = [if (97 <=? c) && (c <=? 122) then c - 32 else c].
Proof. intros H. unfold upper_char. apply N.ltb_lt in H. by rewrite H. Qed.

(** For a normalized text of ASCII characters the boolean coercer is true
    for the four spellings "SI", "Si", "sI" and "si" and for nothing else. *)
Theorem bool_from_token_ascii n :
  Forall (fun c => c < 128) (clean_text n) ->
  (bool_from_token n = true
   <-> clean_text n = py "SI" \/ clean_text n = py "Si"
       \/ clean_text n = py "sI" \/ clean_text n = py "si").
Proof.
  intros Hall. unfold bool_from_token, pystr_eqb.
  rewrite bool_decide_eq_true. unfold upper.
  destruct (clean_text n) as [|a [|b [|c t]]].
  - split; [done | by intros [|[|[|]]]].
  - apply Forall_cons in Hall as [Ha _]. simpl.
    rewrite (upper_char_ascii a Ha). simpl.
    split; [done | by intros [|[|[|]]]].
  - apply Forall_cons in Hall as [Ha Hall]. apply Forall_cons in Hall as [Hb _].
    simpl. rewrite (upper_char_ascii a Ha), (upper_char_ascii b Hb). simpl.
    change (py "SI") with [83; 73]. change (py "Si") with [83; 105].
    change (py "sI") with [115; 73]. change (py "si") with [115; 105].
    destruct ((97 <=? a) && (a <=? 122)) eqn:Ea,
             ((97 <=? b) && (b <=? 122)) eqn:Eb;
      try (apply andb_true_iff in Ea as [Ea1 Ea2]; apply N.leb_le in Ea1, Ea2);
      try (apply andb_true_iff in Eb as [Eb1 Eb2]; apply N.leb_le in Eb1, Eb2);
      try (apply andb_false_iff in Ea as [Ea|Ea]; apply N.leb_gt in Ea);
      try (apply andb_false_iff in Eb as [Eb|Eb]; apply N.leb_gt in Eb).
    all: split;
      [ intros [= E1 E2];
        first [ left; f_equal; [lia | f_equal; lia]
              | right; left; f_equal; [lia | f_equal; lia]
              | right; right; left; f_equal; [lia | f_equal; lia]
              | right; right; right; f_equal; [lia | f_equal; lia] ]
      | intros [[= -> ->]|[[= -> ->]|[[= -> ->]|[= -> ->]]]];
        first [ reflexivity | exfalso; lia ] ].
  - apply Forall_cons in Hall as [Ha Hall]. apply Forall_cons in Hall as [Hb Hall].
    apply Forall_cons in Hall as [Hc _]. simpl.
    rewrite (upper_char_ascii a Ha), (upper_char_ascii b Hb),
      (upper_char_ascii c Hc). simpl.
    split; [done | by intros [|[|[|]]]].
Qed.

(** [int] raises nothing but [ValueError]. *)
Lemma py_int_raise s e : py_int s = Raise e -> e = ValueError.
Proof.
  unfold py_int.
  destruct (match skip_ascii_space _ with [] => _ | _ => _ end) as [negative t].
  repeat match goal with
           | |- context [match ?x with _ => _ end] => destruct x
           | |- context [if ?x then _ else _] => destruct x
           end; intros [= <-]; reflexivity.
Qed.

Lemma option_term_ok o t : option_term o = Ok t <-> option_has_term o t.
Proof.
  unfold option_term, option_has_term, option_value_parts.
  split.
  - destruct (attrs_of o !! "value") as [[v|l]|]; try done. simpl.
    destruct (split (py "-") v) as [|y [|p [|x tl]]] eqn:Hs; try done.
    destruct (py_int y) as [yy|] eqn:Hy; [|done].
    destruct (py_int p) as [pp|] eqn:Hp; [|done].
    simpl. intros [= <-]. by exists v, y, p.
  - intros (v & y & p & -> & Hs & Hy & Hp). simpl.
    rewrite Hs, Hy. simpl. rewrite Hp. simpl. by destruct t.
Qed.

(** An option with a string as its value raises nothing but
    [ValueError]. *)
Lemma option_term_raise o v e :
  attrs_of o !! "value" = Some (AStr v) ->
  option_term o = Raise e -> e = ValueError.
Proof.
  intros Hv. unfold option_term, option_value_parts. rewrite Hv. simpl.
  destruct (split (py "-") v) as [|y [|p [|x tl]]]; try by intros [= <-].
  destruct (py_int y) as [yy|e'] eqn:Hy; simpl.
  - destruct (py_int p) as [pp|e'] eqn:Hp; simpl; [done|].
    intros [= <-]. by apply py_int_raise in Hp.
  - intros [= <-]. by apply py_int_raise in Hy.
Qed.

Lemma parse_options_cons o rest acc :
  parse_options (o :: rest) acc =
    (t ← option_term o; parse_options rest (acc ++ [t])).
Proof.
  simpl. unfold option_term.
  destruct (option_value_parts o) as [[|y [|p [|x tl]]]|e]; try reflexivity.
  cbn [mbind result_bind].
  destruct (py_int y); [|reflexivity]. cbn [mbind result_bind].
  destruct (py_int p); reflexivity.
Qed.

(** The loop over the options takes the options one after the other and
    stops at the first that raises. *)
Lemma parse_options_traverse options acc :
  parse_options options acc =
    (ts ← traverse option_term options; Ok (acc ++ ts)).
Proof.
  revert acc. induction options as [|o options IH]; intros acc.
  - simpl. by rewrite app_nil_r.
  - rewrite parse_options_cons, traverse_cons.
    destruct (option_term o) as [t|e]; [|reflexivity].
    cbn [mbind result_bind]. rewrite IH.
    destruct (traverse option_term options) as [ts|e]; [|reflexivity].
    cbn [mbind result_bind]. by rewrite <- app_assoc.
Qed.

(** Claim C5, as amended. Term discovery returns a list exactly when the
    value of every option of the selector has the format
    "<year>-<period>" with two integers, and the list then has the pair
    of each option, in the order of the options. No option is skipped:
    one option without such a value makes term discovery raise. *)
Theorem get_available_terms_all_options soup selector :
  find_period_selector soup = Some selector ->
  (forall terms,
      get_available_terms soup = Ok terms
      <-> Forall2 option_has_term (find_all "option" selector) terms)
  /\ (forall o,
        In o (find_all "option" selector) ->
        (forall t, ~ option_has_term o t) ->
        exists e, get_available_terms soup = Raise e).
Proof.
  intros Hsel.
  assert (Hiff : forall terms,
             get_available_terms soup = Ok terms
             <-> Forall2 option_has_term (find_all "option" selector) terms).
  { intros terms. unfold get_available_terms. rewrite Hsel.
    rewrite parse_options_traverse.
    destruct (traverse option_term (find_all "option" selector))
      as [ts|e] eqn:E; simpl.
    - apply traverse_ok in E. split.
      + intros [= <-]. eapply Forall2_impl; [exact E|].
        intros o t. apply option_term_ok.
      + intros H. f_equal. revert H. generalize terms. clear terms.
        induction E as [|o t os ts Ho _ IH]; intros terms H.
        * by inversion H.
        * inversion H as [|? t' ? ts' Ht Hts]; subst.
          apply option_term_ok in Ht. rewrite Ho in Ht. injection Ht as <-.
          by rewrite (IH _ Hts).
    - split; [done|]. intros H.
      assert (Hok : traverse option_term (find_all "option" selector)
                    = Ok terms).
      { apply traverse_ok. eapply Forall2_impl; [exact H|].
        intros o t. apply option_term_ok. }
      congruence. }
  split; [exact Hiff|].
  intros o Hin Hno.
  destruct (get_available_terms soup) as [terms|e] eqn:E; [|eauto].
  pose proof (proj1 (Hiff terms) eq_refl) as HF.
  apply list_elem_of_In, list_elem_of_lookup in Hin as [i Hi].
  destruct (Forall2_lookup_l _ _ _ _ _ HF Hi) as (t & _ & Ht).
  by destruct (Hno t).
Qed.

(** *** The errors of term discovery *)

Lemma traverse_first_failure {A B} (f : A -> result B) good a rest e :
  Forall (fun x => is_ok (f x) = true) good ->
  f a = Raise e ->
  traverse f (good ++ a :: rest) = Raise e.
Proof.
  intros Hgood Ha. induction Hgood as [|x good Hx _ IH]; simpl.
  - by rewrite Ha.
  - destruct (f x); [|done]. simpl. by rewrite IH.
Qed.

(** Term discovery stops at the first option that fails, with the error of
    that option: the options after it are not looked at, and the terms of
    the options before it are lost. *)
Theorem get_available_terms_first_failure soup selector good o rest e :
  find_period_selector soup = Some selector ->
  find_all "option" selector = good ++ o :: rest ->
  Forall (fun x => is_ok (option_term x) = true) good ->
  option_term o = Raise e ->
  get_available_terms soup = Raise e.
Proof.
  intros Hsel Hopts Hgood Ho. unfold get_available_terms.
  rewrite Hsel, parse_options_traverse, Hopts.
  by rewrite (traverse_first_failure _ _ _ _ e Hgood Ho).
Qed.

(** The errors of an option: [KeyError] exactly when the option has no
    [value] attribute, [AttributeError] exactly when the value is a list
    and not a string, and [ValueError] in every other case of failure,
    when the value does not split in two on "-" or a piece is not an
    integer. *)
Theorem option_term_errors o :
  (option_term o = Raise KeyError <-> attrs_of o !! "value" = None)
  /\ (option_term o = Raise AttributeError
      <-> exists l, attrs_of o !! "value" = Some (AList l))
  /\ (forall e, option_term o = Raise e ->
                e = KeyError \/ e = AttributeError \/ e = ValueError).
Proof.
  destruct (attrs_of o !! "value") as [[v|l]|] eqn:Hv.
  - pose proof (fun e => option_term_raise o v e Hv) as H.
    split; [|split].
    + split; [|done]. intros E. by apply H in E.
    + split; [intros E; by apply H in E | by intros [? ?]].
    + intros e E. apply H in E. auto.
  - assert (E : option_term o = Raise AttributeError)
      by (unfold option_term, option_value_parts; by rewrite Hv).
    rewrite E. split; [|split]; [done | | intros e [= <-]; auto].
    split; [eauto | done].
  - assert (E : option_term o = Raise KeyError)
      by (unfold option_term, option_value_parts; by rewrite Hv).
    rewrite E. split; [|split]; [done | | intros e [= <-]; auto].
    split; [done | by intros [? ?]].
Qed.

(** Term discovery returns the empty list exactly when the document has no
    selector named [cxml_semestre] or the selector has no option. *)
Theorem get_available_terms_empty soup :
  get_available_terms soup = Ok []
  <-> find_period_selector soup = None
      \/ exists selector,
           find_period_selector soup = Some selector
           /\ find_all "option" selector = [].
Proof.
  unfold get_available_terms.
  destruct (find_period_selector soup) as [selector|]; [|by split; auto].
  rewrite parse_options_traverse.
  destruct (find_all "option" selector) as [|o os] eqn:Ho.
  - split; [|done]. intros _. right. by exists selector.
  - rewrite traverse_cons. split.
    + destruct (option_term o); [|done]. simpl.
      destruct (traverse option_term os); done.
    + intros [?|(sel & [= <-] & Hnil)]; [done | congruence].
Qed.

(** *** Queries and terms *)

Lemma decimal_digits_rev_cons fuel n :
  decimal_digits_rev (S fuel) n
  = (48 + n mod 10) :: (if n <? 10 then [] else decimal_digits_rev fuel (n / 10)).
Proof. reflexivity. Qed.

(** With enough fuel the digits are digits and have the number as their
    value. *)
Lemma decimal_digits_rev_spec fuel :
  forall n,
    n < 2 ^ N.of_nat fuel ->
    Forall (fun c => 48 <= c <= 57) (decimal_digits_rev (S fuel) n)
    /\ fold_right (fun c a => 10 * a + (c - 48)) 0 (decimal_digits_rev (S fuel) n)
       = n.
Proof.
  induction fuel as [|fuel IH]; intros n Hn.
  - change (2 ^ N.of_nat 0) with 1 in Hn. assert (n = 0) as -> by lia.
    change (decimal_digits_rev 1 0) with [48].
    split; [repeat constructor; lia | reflexivity].
  - rewrite decimal_digits_rev_cons.
    pose proof (N.mod_upper_bound n 10 ltac:(lia)) as Hmod.
    pose proof (N.div_mod n 10 ltac:(lia)) as Hdiv.
    assert (Hc : 48 <= 48 + n mod 10 <= 57)
      by (clear -Hmod; generalize dependent (n mod 10); intros; lia).
    assert (Hv : 10 * (n / 10) + (48 + n mod 10 - 48) = n)
      by (clear -Hdiv; generalize dependent (n mod 10); generalize (n / 10);
          intros; lia).
    destruct (N.ltb_spec n 10) as [Hlt|Hge].
    + split; [constructor; [exact Hc | constructor]|]. cbn [fold_right].
      rewrite (N.div_small n 10) in Hv by done. done.
    + assert (Hq : n / 10 < 2 ^ N.of_nat fuel).
      { apply N.Div0.div_lt_upper_bound.
        rewrite Nat2N.inj_succ, N.pow_succ_r' in Hn. clear -Hn.
        generalize dependent (2 ^ N.of_nat fuel). intros. lia. }
      destruct (IH _ Hq) as [Hall Hval].
      split; [by constructor|].
      cbn [fold_right]. by rewrite Hval.
Qed.

Lemma decimal_digits_spec n :
  Forall (fun c => 48 <= c <= 57) (decimal_digits n)
  /\ fold_left (fun a c => 10 * a + (c - 48)) (decimal_digits n) 0 = n
  /\ decimal_digits n <> [].
Proof.
  unfold decimal_digits.
  destruct (decimal_digits_rev_spec (N.to_nat (N.size n)) n) as [Hall Hval].
  { rewrite N2Nat.id. apply N.size_gt. }
  split; [by apply Forall_rev|]. split.
  - rewrite <- fold_left_rev_right, rev_involutive. exact Hval.
  - rewrite decimal_digits_rev_cons. intros E.
    apply (f_equal (@length N)) in E. rewrite length_rev in E. done.
Qed.

(** [scan_digits] reads a run of digits to its end. *)
Lemma scan_digits_digits ds :
  forall rest acc ndigits,
    Forall (fun c => 48 <= c <= 57) ds ->
    scan_digits (ds ++ rest) acc ndigits false
    = scan_digits rest (fold_left (fun a c => 10 * a + (c - 48)) ds acc)
                  (ndigits + N.of_nat (length ds)) false.
Proof.
  induction ds as [|c ds IH]; intros rest acc ndigits Hall.
  - simpl. by rewrite N.add_0_r.
  - apply Forall_cons in Hall as [Hc Hall].
    assert (H95 : (c =? 95) = false) by (apply N.eqb_neq; lia).
    assert (Hd : ((48 <=? c) && (c <=? 57)) = true).
    { apply andb_true_iff. split; apply N.leb_le; lia. }
    cbn [app scan_digits fold_left length]. rewrite H95.
    rewrite Hd, IH by done. f_equal. lia.
Qed.

Lemma digit_cases c :
  48 <= c <= 57 ->
  c = 48 \/ c = 49 \/ c = 50 \/ c = 51 \/ c = 52 \/ c = 53 \/ c = 54 \/ c = 55
  \/ c = 56 \/ c = 57.
Proof. lia. Qed.

Lemma digit_not_sign c (t : pystr) :
  48 <= c <= 57 ->
  match c :: t with
  | 43 :: t' => (false, t')
  | 45 :: t' => (true, t')
  | _ => (false, c :: t)
  end = (false, c :: t).
Proof.
  intros H. destruct (digit_cases c H) as [->|[->|[->|[->|[->|[->|[->|[->|[->| ->]]]]]]]]];
    reflexivity.
Qed.

Lemma digit_not_underscore {A} c (t : pystr) (a b : A) :
  48 <= c <= 57 ->
  match c :: t with
  | 95 :: _ => a
  | _ => b
  end = b.
Proof.
  intros H. destruct (digit_cases c H) as [->|[->|[->|[->|[->|[->|[->|[->|[->| ->]]]]]]]]];
    reflexivity.
Qed.

Lemma map_to_ascii_decimal s :
  Forall (fun c => c < 127) s -> map to_ascii_decimal s = s.
Proof.
  induction 1 as [|c s Hc _ IH]; [done|]. simpl. rewrite IH.
  unfold to_ascii_decimal. apply N.ltb_lt in Hc. by rewrite Hc.
Qed.

(** [int] reads a run of digits, with or without a minus sign before it, as
    the number the digits stand for, when they are not more than the
    interpreter allows. *)
Lemma py_int_digits ds :
  Forall (fun c => 48 <= c <= 57) ds -> ds <> [] ->
  (0 <? int_max_str_digits) && (int_max_str_digits <? N.of_nat (length ds))
  = false ->
  let n := fold_left (fun a c => 10 * a + (c - 48)) ds 0 in
  py_int ds = Ok (Z.of_N n) /\ py_int (45 :: ds) = Ok (- Z.of_N n)%Z.
Proof.
  intros Hall Hne Hlim n.
  assert (Hmap : map to_ascii_decimal ds = ds).
  { apply map_to_ascii_decimal. eapply Forall_impl; [exact Hall|].
    simpl. intros c Hc. lia. }
  assert (Hscan : scan_digits ds 0 0 false
                  = Some (n, N.of_nat (length ds), [])).
  { rewrite <- (app_nil_r ds) at 1. by rewrite scan_digits_digits. }
  destruct ds as [|c ds']; [done|]. clear Hne.
  pose proof (Forall_inv Hall) as Hc. simpl in Hc.
  assert (Hsp : ascii_space c = false).
  { unfold ascii_space. apply orb_false_iff. split.
    - apply andb_false_iff. right. apply N.leb_gt. lia.
    - apply N.eqb_neq. lia. }
  assert (Hnd : (N.of_nat (length (c :: ds')) =? 0) = false).
  { apply N.eqb_neq. simpl. lia. }
  split.
  - unfold py_int. rewrite Hmap. cbn [skip_ascii_space]. rewrite Hsp.
    rewrite (digit_not_sign c ds' Hc).
    rewrite (digit_not_underscore c ds' _ _ Hc).
    rewrite Hscan, Hnd, Hlim. reflexivity.
  - unfold py_int.
    change (map to_ascii_decimal (45 :: c :: ds'))
      with (to_ascii_decimal 45 :: map to_ascii_decimal (c :: ds')).
    rewrite Hmap. change (to_ascii_decimal 45) with 45.
    change (skip_ascii_space (45 :: c :: ds')) with (45 :: c :: ds').
    cbv beta iota.
    rewrite (digit_not_underscore c ds' _ _ Hc).
    rewrite Hscan, Hnd, Hlim. reflexivity.
Qed.

(** [int] reads back what [str] writes. *)
Lemma py_int_py_str_int z v : py_str_int z = Ok v -> py_int v = Ok z.
Proof.
  unfold py_str_int.
  destruct (decimal_digits_spec (Z.abs_N z)) as (Hall & Hval & Hne).
  destruct ((0 <? int_max_str_digits)
            && (int_max_str_digits <? N.of_nat (length (decimal_digits (Z.abs_N z)))))
    eqn:Hlim; [done|].
  destruct (py_int_digits _ Hall Hne Hlim) as [Hpos Hneg].
  rewrite Hval in Hpos, Hneg.
  destruct (Z.ltb_spec z 0) as [Hz|Hz]; intros [= <-].
  - rewrite Hneg. f_equal. rewrite N2Z.inj_abs_N. lia.
  - rewrite Hpos. f_equal. rewrite N2Z.inj_abs_N. lia.
Qed.

(** The round trip of a term. For a year and a semester that are not
    negative, the value that [get_courses] sends as [cxml_semestre] is read
    back by term discovery, from an option with that value, as the pair of
    the year and the semester; the code is sent as [cxml_sigla]. *)
Theorem get_courses_params_round_trip code year semester params :
  (0 <= year)%Z -> (0 <= semester)%Z ->
  get_courses_params code year semester = Ok params ->
  params !! "cxml_sigla" = Some code
  /\ exists v,
       params !! "cxml_semestre" = Some v
       /\ forall o,
            attrs_of o !! "value" = Some (AStr v) ->
            option_term o = Ok (year, semester).
Proof.
  intros Hy Hs. unfold get_courses_params, term_value.
  destruct (py_str_int year) as [ys|] eqn:Ey; [|done].
  destruct (py_str_int semester) as [ss|] eqn:Es; [|done].
  simpl. intros [= <-]. split; [done|].
  exists (ys ++ py "-" ++ ss). split; [by rewrite lookup_insert_eq|].
  intros o Ho.
  pose proof (py_int_py_str_int _ _ Ey) as Iy.
  pose proof (py_int_py_str_int _ _ Es) as Is.
  assert (Hdash : forall z v, (0 <= z)%Z -> py_str_int z = Ok v -> 45 ∉ v).
  { intros z v Hz. unfold py_str_int.
    destruct (_ && _); [done|].
    destruct (Z.ltb_spec z 0); [lia|]. intros [= <-].
    destruct (decimal_digits_spec (Z.abs_N z)) as (Hall & _ & _).
    intros Hin. rewrite Forall_forall in Hall. apply Hall in Hin. lia. }
  unfold option_term, option_value_parts. rewrite Ho. simpl.
  change (py "-") with [45].
  change (ys ++ [45] ++ ss) with (ys ++ 45 :: ss).
  rewrite split_char_app by eauto. rewrite split_char_notin by eauto.
  rewrite Iy. simpl. by rewrite Is.
Qed.

(** A negative year or semester does not come back: its minus sign is one
    more "-" in the value, which then splits in more than two pieces, and
    term discovery raises [ValueError] on an option with that value. *)
Theorem get_courses_params_negative code year semester params v o :
  (year < 0)%Z \/ (semester < 0)%Z ->
  get_courses_params code year semester = Ok params ->
  params !! "cxml_semestre" = Some v ->
  attrs_of o !! "value" = Some (AStr v) ->
  option_term o = Raise ValueError.
Proof.
  intros Hneg. unfold get_courses_params, term_value.
  destruct (py_str_int year) as [ys|] eqn:Ey; [|done].
  destruct (py_str_int semester) as [ss|] eqn:Es; [|done].
  cbn [mbind result_bind]. remember (ys ++ py "-" ++ ss) as v0 eqn:Hv0.
  intros [= <-]. rewrite lookup_insert_eq. intros [= <-] Ho.
  assert (Hminus : forall z w, (z < 0)%Z -> py_str_int z = Ok w ->
                               (1 <= count_char 45 w)%nat).
  { intros z w Hz. unfold py_str_int. destruct (_ && _); [done|].
    destruct (Z.ltb_spec z 0); [|lia]. intros [= <-].
    rewrite count_char_cons. case_decide; [lia | done]. }
  assert (Hcount : (2 <= count_char 45 v0)%nat).
  { rewrite Hv0, !count_char_app. change (count_char 45 (py "-")) with 1%nat.
    destruct Hneg as [Hz|Hz]; [apply Hminus in Ey | apply Hminus in Es]; lia. }
  unfold option_term, option_value_parts. rewrite Ho.
  cbn [mbind result_bind].
  pose proof (split_char_length 45 v0) as Hl.
  change [45] with (py "-") in Hl.
  destruct (split (py "-") v0) as [|a [|b [|c tl]]];
    simpl in Hl; try done; lia.
Qed.

(** *** Headings and result rows *)

(** [re_search] finds a piece of the string in the language of the
    pattern. *)
Lemma re_search_spec r s :
  re_search r s = true
  <-> exists pre w post, s = pre ++ w ++ post /\ lang r w.
Proof.
  induction s as [|c s IH].
  - change (re_search r []) with (re_match r [] || false).
    rewrite orb_false_r, re_match_spec. split.
    + intros (w & rest & E & H). by exists [], w, rest.
    + intros (pre & w & post & E & H). symmetry in E.
      apply app_eq_nil in E as [-> E]. by exists w, post.
  - change (re_search r (c :: s)) with (re_match r (c :: s) || re_search r s).
    rewrite orb_true_iff, re_match_spec, IH. split.
    + intros [(w & rest & E & H)|(pre & w & post & -> & H)].
      * by exists [], w, rest.
      * by exists (c :: pre), w, post.
    + intros (pre & w & post & E & H). destruct pre as [|x pre].
      * left. by exists w, post.
      * injection E as <- ->. right. by exists pre, w, post.
Qed.

(** [NON_EMPTY_TEXT_RE] is found in the strings that have a character
    that is not white space. *)
Lemma re_search_NON_EMPTY_TEXT_RE s :
  re_search NON_EMPTY_TEXT_RE s = true
  <-> exists c, c ∈ s /\ is_space c = false.
Proof.
  rewrite re_search_spec. split.
  - intros (pre & w & post & -> & H).
    apply lang_cat_inv in H as (w1 & w' & -> & _ & H).
    apply lang_cat_inv in H as (w2 & w3 & -> & H & _).
    apply lang_class_inv in H as (c & -> & Hc). exists c.
    split; [|by apply negb_true_iff].
    rewrite !elem_of_app, elem_of_cons. auto 10.
  - intros (c & Hin & Hc).
    apply list_elem_of_split in Hin as (pre & post & ->).
    exists pre, [c], post. split; [done|].
    apply (lang_cat _ _ [] [c]); [constructor|].
    apply (lang_cat _ _ [c] []); [|constructor].
    constructor. by apply negb_true_iff.
Qed.

(** A node is taken for the heading of an academic unit exactly when it is
    a tag without [style] and without [class] whose only string has a
    character that is not white space. *)
Theorem is_academic_unit_spec n :
  is_academic_unit n = true
  <-> exists name attrs children s,
        n = Elem name attrs children
        /\ attrs !! "style" = None /\ attrs !! "class" = None
        /\ node_string n = Some s
        /\ exists c, c ∈ s /\ is_space c = false.
Proof.
  split.
  - destruct n as [t|t|name attrs children]; try done.
    unfold is_academic_unit. rewrite !andb_true_iff. intros [[Hs Hc] Hstr].
    destruct (node_string (Elem name attrs children)) as [str|] eqn:E; [|done].
    apply re_search_NON_EMPTY_TEXT_RE in Hstr.
    exists name, attrs, children, str.
    destruct (attrs !! "style"); [done|]. destruct (attrs !! "class"); done.
  - intros (name & attrs & children & str & -> & Hs & Hc & Hstr & Hne).
    unfold is_academic_unit. rewrite Hs, Hc, Hstr. simpl.
    by apply re_search_NON_EMPTY_TEXT_RE.
Qed.

(** A result row is never taken for a heading: it has a class. *)
Lemma result_row_not_academic_unit n :
  MATCH_RESULT_ROW n = true -> is_academic_unit n = false.
Proof.
  destruct n as [t|t|name attrs children]; try done.
  unfold MATCH_RESULT_ROW, is_academic_unit. simpl.
  destruct (attrs !! "class"); [|done]. intros _.
  by rewrite andb_false_r.
Qed.

Lemma re_search_Lit w s :
  re_search (Lit w) s = true <-> exists pre post, s = pre ++ w ++ post.
Proof.
  rewrite re_search_spec. split.
  - intros (pre & v & post & -> & H). apply lang_Lit in H as ->. eauto.
  - intros (pre & post & ->). exists pre, w, post. split; [done | by apply lang_Lit].
Qed.

(** A string that does not contain [c] and lies in [a ++ c :: b] lies in
    [a] or in [b]. *)
Lemma infix_app_sep (w pre post a b : pystr) c :
  c ∉ w -> pre ++ w ++ post = a ++ c :: b ->
  (exists pre' post', a = pre' ++ w ++ post')
  \/ (exists pre' post', b = pre' ++ w ++ post').
Proof.
  intros Hc E. rewrite app_assoc in E.
  apply app_eq_app in E as [l [[E1 E2]|[E1 E2]]].
  - destruct l as [|x l'].
    + left. exists pre, []. rewrite app_nil_r in *. done.
    + injection E2 as <- ->.
      apply app_eq_app in E1 as [m [[E1 E3]|[E1 E3]]].
      * destruct m as [|x m'].
        -- simpl in E3. subst w. exfalso. apply Hc. left.
        -- simpl in E3. injection E3 as _ ->. right. exists m', post.
           by rewrite <- app_assoc.
      * exfalso. apply Hc. rewrite E3, elem_of_app. right. left.
  - left. exists pre, l. by rewrite E1, <- app_assoc.
Qed.

Lemma infix_join_space (w : pystr) l :
  w <> [] -> 32 ∉ w ->
  (exists pre post, join (py " ") l = pre ++ w ++ post) ->
  exists t, t ∈ l /\ exists pre post, t = pre ++ w ++ post.
Proof.
  intros Hw Hsp. induction l as [|p [|q qs] IH]; intros (pre & post & E).
  - simpl in E. symmetry in E. apply app_eq_nil in E as [_ E].
    apply app_eq_nil in E as [E _]. done.
  - exists p. split; [left | by exists pre, post].
  - change (join (py " ") (p :: q :: qs))
      with (p ++ 32 :: join (py " ") (q :: qs)) in E.
    symmetry in E.
    apply (infix_app_sep w pre post) in E as [H|H]; [| |done].
    + exists p. split; [left | done].
    + destruct (IH H) as (t & Ht & Hin). exists t. split; [by right | done].
Qed.

(** A tag has the mark of a result row exactly when it has a [class] one of
    whose values contains "resultados"; that [bs4] also looks at the values
    joined by spaces adds nothing, as the pattern has no space. *)
Theorem MATCH_RESULT_ROW_spec n :
  MATCH_RESULT_ROW n = true
  <-> exists v,
        attrs_of n !! "class" = Some v
        /\ match v with
           | AStr s => exists pre post, s = pre ++ py "resultados" ++ post
           | AList l =>
               exists t, t ∈ l
                         /\ exists pre post, t = pre ++ py "resultados" ++ post
           end.
Proof.
  unfold MATCH_RESULT_ROW, attr_matches_re.
  destruct (attrs_of n !! "class") as [[s|l]|].
  - rewrite re_search_Lit. split; [intros H; by exists (AStr s) | by intros (? & [= <-] & ?)].
  - rewrite orb_true_iff, existsb_exists, re_search_Lit. split.
    + intros [(t & Hin & Ht)|Hj]; exists (AList l); (split; [done|]).
      * exists t. apply list_elem_of_In in Hin. by apply re_search_Lit in Ht.
      * apply infix_join_space in Hj; [done | done |].
        apply (bool_decide_unpack _). vm_compute. exact I.
    + intros (v & [= <-] & t & Hin & Ht). left. exists t.
      split; [by apply list_elem_of_In | by apply re_search_Lit].
  - split; [done | by intros (? & ? & ?)].
Qed.

(** The school of a row is read from the nearest heading before the row
    among its siblings: the tag found is a previous sibling, it is a
    heading, no sibling between it and the row is a heading, and it is not
    a result row. Without a heading before the row no tag is found. *)
Theorem find_previous_sibling_nearest row :
  match find_previous_sibling row with
  | Some school_tag =>
      exists nearer farther,
        before row = nearer ++ school_tag :: farther
        /\ Forall (fun n => is_academic_unit n = false) nearer
        /\ is_academic_unit school_tag = true
        /\ MATCH_RESULT_ROW school_tag = false
  | None => Forall (fun n => is_academic_unit n = false) (before row)
  end.
Proof.
  unfold find_previous_sibling.
  induction (before row) as [|n l IH]; simpl; [constructor|].
  destruct (is_academic_unit n) eqn:E; simpl.
  - exists [], l. split; [done|]. split; [constructor|]. split; [done|].
    destruct (MATCH_RESULT_ROW n) eqn:M; [|done].
    apply result_row_not_academic_unit in M. congruence.
  - destruct (head (List.filter is_academic_unit l)) as [h|].
    + destruct IH as (nearer & farther & -> & Hn & Hh & Hm).
      exists (n :: nearer), farther. split; [done|].
      split; [by constructor | done].
    + by constructor.
Qed.

(** *** Rows *)

Lemma successes_app {A} (l1 l2 : list (result A)) :
  successes (l1 ++ l2) = successes l1 ++ successes l2.
Proof.
  induction l1 as [|[a|e] l1 IH]; simpl; [done | by rewrite IH | done].
Qed.

Lemma length_successes {A B} (f : A -> result B) l :
  length (successes (map f l)) = length (List.filter (fun a => is_ok (f a)) l).
Proof.
  induction l as [|a l IH]; simpl; [done|].
  destruct (f a); simpl; by rewrite IH.
Qed.

(** A row that has not as many cells as there are column strategies
    fails. *)
Lemma parse_row_cell_count row :
  length (find_children "td" (here row)) <> 18%nat ->
  parse_row row = Raise StructuralRowError.
Proof.
  intros Hn. unfold parse_row, run_parse_strategy.
  rewrite bool_decide_eq_false_2; done.
Qed.

(** Claim C2. The parse of a document never raises: it returns the
    records of the result rows whose parse succeeds, in document order.
    A row whose parse fails, for its number of cells or for a cell that
    cannot be coerced, is left out, and the records of the rows before it
    and after it are all kept. *)
Theorem get_courses_raw_partial_failure soup :
  exists courses,
    get_courses_raw soup = Ok courses
    /\ courses = successes (map parse_row (result_rows soup))
    /\ length courses
       = length (List.filter (fun row => is_ok (parse_row row))
                             (result_rows soup))
    /\ (forall l1 row l2 e,
          result_rows soup = l1 ++ row :: l2 ->
          parse_row row = Raise e ->
          courses = successes (map parse_row l1)
                    ++ successes (map parse_row l2)).
Proof.
  exists (successes (map parse_row (result_rows soup))).
  split; [|split; [done|split]].
  - unfold get_courses_raw, gather_routines.
    by destruct (result_rows soup).
  - apply length_successes.
  - intros l1 row l2 e -> Hrow.
    rewrite map_app, successes_app. simpl. by rewrite Hrow.
Qed.

End Builtins.

(** ** The examples of the claims on documents *)

Lemma get_courses_raw_partial_failure_witness :
  let soup := five_rows_and_a_broken_one in
  let parse := parse_row ascii_upper ascii_decimal 4300 trim_text in
  length (result_rows soup) = 6%nat
  /\ length (List.filter (fun row => is_ok (parse row)) (result_rows soup)) = 5%nat
  /\ (exists l1 row l2,
        result_rows soup = l1 ++ row :: l2
        /\ parse row = Raise StructuralRowError)
  /\ exists courses,
       get_courses_raw ascii_upper ascii_decimal 4300 trim_text soup = Ok courses
       /\ length courses = 5%nat.
Proof.
  intros soup parse.
  assert (H5 : length (List.filter (fun row => is_ok (parse row))
                                   (result_rows soup)) = 5%nat)
    by (vm_compute; reflexivity).
  split; [vm_compute; reflexivity|]. split; [exact H5|]. split.
  - exists (firstn 2 (result_rows soup)),
           (nth 2 (result_rows soup) {| before := []; here := Text [] |}),
           (skipn 3 (result_rows soup)).
    split; vm_compute; reflexivity.
  - destruct (get_courses_raw_partial_failure ascii_upper ascii_decimal 4300 trim_text soup)
      as (courses & Hc & _ & Hlen & _).
    exists courses. split; [exact Hc|]. rewrite Hlen. exact H5.
Defined.

Lemma get_available_terms_all_options_witness :
  let soup := term_selector ["2024-1"; "2024-2"] in
  let selector := term_select ["2024-1"; "2024-2"] in
  find_period_selector soup = Some selector
  /\ get_available_terms ascii_decimal 4300 soup = Ok [(2024, 1); (2024, 2)]%Z
  /\ exists e,
       get_available_terms ascii_decimal 4300
         (term_selector ["2024-1"; "2024-2"; "garbage"]) = Raise e.
Proof.
  intros soup selector.
  assert (Hsel : find_period_selector soup = Some selector) by reflexivity.
  split; [exact Hsel|]. split.
  - apply (get_available_terms_all_options ascii_decimal 4300 soup selector Hsel).
    repeat constructor.
    + by exists (py "2024-1"), (py "2024"), (py "1").
    + by exists (py "2024-2"), (py "2024"), (py "2").
  - apply (proj2 (get_available_terms_all_options ascii_decimal 4300
                    (term_selector ["2024-1"; "2024-2"; "garbage"])
                    (term_select ["2024-1"; "2024-2"; "garbage"]) eq_refl)
                 (term_option "garbage")).
    + right; right; left; reflexivity.
    + intros t (v & y & p & Hv & Hs & _).
      vm_compute in Hv. injection Hv as <-. vm_compute in Hs. discriminate.
Defined.

(** Claim C5 as stated fails: the option with the value "garbage" is not
    skipped. Its value does not split in two on "-", the unpacking raises
    [ValueError], and no list of terms is returned, whatever the Unicode
    tables and the digit limit of the interpreter are. *)
Lemma get_available_terms_garbage :
  (forall unicode_decimal int_max_str_digits,
      get_available_terms unicode_decimal int_max_str_digits
        (term_selector ["2024-1"; "2024-2"; "garbage"]) = Raise ValueError)
  /\ ~ (exists unicode_decimal int_max_str_digits,
          get_available_terms unicode_decimal int_max_str_digits
            (term_selector ["2024-1"; "2024-2"; "garbage"])
          = Ok [(2024, 1); (2024, 2)]%Z).
Proof.
  assert (H : forall dec lim,
             get_available_terms dec lim
               (term_selector ["2024-1"; "2024-2"; "garbage"])
             = Raise ValueError).
  { intros dec lim. unfold get_available_terms.
    change (find_period_selector (term_selector ["2024-1"; "2024-2"; "garbage"]))
      with (Some (term_select ["2024-1"; "2024-2"; "garbage"])).
    cbv beta iota.
    change (find_all "option" (term_select ["2024-1"; "2024-2"; "garbage"]))
      with [term_option "2024-1"; term_option "2024-2"; term_option "garbage"].
    rewrite parse_options_traverse.
    rewrite (traverse_raise _ _ ValueError (term_option "garbage"));
      [reflexivity | | right; right; left; reflexivity | reflexivity].
    intros o e [<-|[<-|[<-|[]]]]; eapply option_term_raise; reflexivity. }
  split; [exact H|]. intros (dec & lim & Hok). rewrite H in Hok. discriminate.
Qed.

Lemma bool_from_token_spec_witness :
  bool_from_token ascii_upper trim_text (td (py " si ")) = true
  /\ bool_from_token ascii_upper trim_text (td (py "SI")) = true
  /\ bool_from_token ascii_upper trim_text (td (py "NO")) = false
  /\ bool_from_token ascii_upper trim_text (td (py "")) = false
  /\ bool_from_token ascii_upper trim_text (td (py "N/A")) = false.
Proof.
  split; [|split; [|split; [|split]]].
  - apply (bool_from_token_spec ascii_upper trim_text (td (py " si "))).
    right. reflexivity.
  - apply (bool_from_token_spec ascii_upper trim_text (td (py "SI"))).
    left. reflexivity.
  - apply (bool_from_token_spec ascii_upper trim_text (td (py "NO"))).
    left. reflexivity.
  - apply (bool_from_token_spec ascii_upper trim_text (td (py ""))).
    right. left. reflexivity.
  - apply (bool_from_token_spec ascii_upper trim_text (td (py "N/A"))).
    right. right. reflexivity.
Defined.

(** An option without a value, after an option with a term. *)
Lemma get_available_terms_first_failure_witness :
  let selector :=
    Elem "select" {[ "name" := AStr (py "cxml_semestre") ]}
         [term_option "2024-1"; Elem "option" ∅ [Text (py "2024-2")];
          term_option "garbage"] in
  let soup := Elem "form" ∅ [selector] in
  find_period_selector soup = Some selector
  /\ find_all "option" selector
     = [term_option "2024-1"] ++ Elem "option" ∅ [Text (py "2024-2")]
         :: [term_option "garbage"]
  /\ Forall (fun x => is_ok (option_term ascii_decimal 4300 x) = true)
            [term_option "2024-1"]
  /\ option_term ascii_decimal 4300 (Elem "option" ∅ [Text (py "2024-2")])
     = Raise KeyError
  /\ get_available_terms ascii_decimal 4300 soup = Raise KeyError.
Proof.
  intros selector soup.
  assert (H1 : find_period_selector soup = Some selector) by reflexivity.
  assert (H2 : find_all "option" selector
               = [term_option "2024-1"] ++ Elem "option" ∅ [Text (py "2024-2")]
                   :: [term_option "garbage"]) by reflexivity.
  assert (H3 : Forall (fun x => is_ok (option_term ascii_decimal 4300 x) = true)
                      [term_option "2024-1"])
    by (repeat constructor).
  assert (H4 : option_term ascii_decimal 4300
                 (Elem "option" ∅ [Text (py "2024-2")]) = Raise KeyError)
    by reflexivity.
  split; [exact H1|]. split; [exact H2|]. split; [exact H3|]. split; [exact H4|].
  exact (get_available_terms_first_failure ascii_decimal 4300 soup selector
           _ _ _ _ H1 H2 H3 H4).
Defined.

Lemma get_courses_params_round_trip_witness :
  let params : gmap string pystr :=
    <["cxml_semestre" := py "2024-1"]> {[ "cxml_sigla" := py "IIC2233" ]} in
  (0 <= 2024)%Z /\ (0 <= 1)%Z
  /\ get_courses_params 4300 (py "IIC2233") 2024 1 = Ok params
  /\ params !! "cxml_sigla" = Some (py "IIC2233")
  /\ exists v,
       params !! "cxml_semestre" = Some v
       /\ forall o,
            attrs_of o !! "value" = Some (AStr v) ->
            option_term ascii_decimal 4300 o = Ok (2024, 1)%Z.
Proof.
  intros params.
  assert (H : get_courses_params 4300 (py "IIC2233") 2024 1 = Ok params)
    by reflexivity.
  split; [lia|]. split; [lia|]. split; [exact H|].
  apply (get_courses_params_round_trip ascii_decimal 4300 (py "IIC2233") 2024 1
           params); [lia | lia | exact H].
Defined.

Lemma get_courses_params_negative_witness :
  let params : gmap string pystr :=
    <["cxml_semestre" := py "2024--1"]> {[ "cxml_sigla" := py "IIC2233" ]} in
  ((2024 < 0)%Z \/ (-1 < 0)%Z)
  /\ get_courses_params 4300 (py "IIC2233") 2024 (-1) = Ok params
  /\ params !! "cxml_semestre" = Some (py "2024--1")
  /\ attrs_of (term_option "2024--1") !! "value" = Some (AStr (py "2024--1"))
  /\ option_term ascii_decimal 4300 (term_option "2024--1") = Raise ValueError.
Proof.
  intros params.
  assert (H0 : (2024 < 0)%Z \/ (-1 < 0)%Z) by (right; lia).
  assert (H1 : get_courses_params 4300 (py "IIC2233") 2024 (-1) = Ok params)
    by reflexivity.
  assert (H2 : params !! "cxml_semestre" = Some (py "2024--1")) by reflexivity.
  assert (H3 : attrs_of (term_option "2024--1") !! "value"
               = Some (AStr (py "2024--1"))) by reflexivity.
  split; [exact H0|]. split; [exact H1|]. split; [exact H2|]. split; [exact H3|].
  exact (get_courses_params_negative ascii_decimal 4300 (py "IIC2233") 2024 (-1)
           params _ _ H0 H1 H2 H3).
Defined.

Lemma bool_from_token_ascii_witness :
  Forall (fun c => c < 128) (trim_text (td (py " Si ")))
  /\ bool_from_token ascii_upper trim_text (td (py " Si ")) = true
  /\ trim_text (td (py " Si ")) = py "Si".
Proof.
  assert (H : Forall (fun c => c < 128) (trim_text (td (py " Si "))))
    by (repeat constructor).
  split; [exact H|]. split; [|reflexivity].
  apply (bool_from_token_ascii ascii_upper trim_text (td (py " Si ")) H).
  right. left. reflexivity.
Defined.
